(** * Chat-chit: the in-memory session / room / invite coordinator of server.js

    A shallow embedding of the Socket.IO server in [src/server.js] and the
    properties of its room store, membership index, invite store and identity
    registry.

    Conventions of the embedding.
    - A JavaScript string is a [string]: a sequence of code units, here
      restricted to the Latin-1 range (one [ascii] per code unit).
    - A value received from a client is a [jsval]; [JNum] stands for an
      integer-valued number that JavaScript prints in plain decimal.
    - The four process-wide [Map]s are [gmap]s keyed by strings; a JavaScript
      [Set] is a duplicate-free list in insertion order.
    - [Date.now()] and the generated ids ([`${Date.now()}-${random}`]) are
      inputs of the event that reads them; one handler runs at one instant.
    - What a handler sends (acknowledgment, targeted emit, room broadcast,
      join / leave of a broadcast group, forced disconnect) is returned as a
      list of [action]s, in program order. *)

From Stdlib Require Import ZArith String Ascii List Lia.
From stdpp Require Import gmap strings list fin_maps pretty.

Open Scope string_scope.
Open Scope list_scope.
Open Scope stdpp_scope.

(** ** Values sent by clients *)

Inductive jsval : Type :=
  | JUndefined
  | JNull
  | JBool (b : bool)
  | JNum (n : Z)
  | JStr (s : string).

(** [!!v] *)
Definition truthy (v : jsval) : bool :=
  match v with
  | JUndefined | JNull => false
  | JBool b => b
  | JNum n => negb (n =? 0)%Z
  | JStr s => negb (String.eqb s "")
  end.

(** [String(v)] *)
Definition js_String (v : jsval) : string :=
  match v with
  | JUndefined => "undefined"
  | JNull => "null"
  | JBool true => "true"
  | JBool false => "false"
  | JNum n => pretty n
  | JStr s => s
  end.

(** [a || b] *)
Definition js_or (a b : jsval) : jsval := if truthy a then a else b.

(** White space removed by [String.prototype.trim], within Latin-1:
    TAB, LF, VT, FF, CR, SPACE and NO-BREAK SPACE. *)
Definition is_js_space (c : ascii) : bool :=
  let n := nat_of_ascii c in
  (((9 <=? n) && (n <=? 13)) || (n =? 32) || (n =? 160))%nat.

Fixpoint trim_start (s : string) : string :=
  match s with
  | EmptyString => EmptyString
  | String c s' => if is_js_space c then trim_start s' else s
  end.

Fixpoint trim_end (s : string) : string :=
  match s with
  | EmptyString => EmptyString
  | String c s' =>
      match trim_end s' with
      | EmptyString => if is_js_space c then EmptyString else String c EmptyString
      | t => String c t
      end
  end.

(** [s.trim()] *)
Definition trim (s : string) : string := trim_end (trim_start s).

(** [s.slice(0, n)] *)
Definition slice0 (n : nat) (s : string) : string := String.substring 0 n s.

Definition MAX_ID : nat := 64.
Definition MAX_TEXT : nat := 4000.

(** [String(v).trim().slice(0, 64)] *)
Definition norm_id (v : jsval) : string := slice0 MAX_ID (trim (js_String v)).

(** ** JavaScript [Set]s of strings, in insertion order *)

Definition set_has (x : string) (l : list string) : bool := bool_decide (x ∈ l).

Definition set_add (x : string) (l : list string) : list string :=
  if set_has x l then l else l ++ [x].

Definition set_delete (x : string) (l : list string) : list string :=
  filter (λ y, y ≠ x) l.

(** [set.size === 0] *)
Definition set_empty (l : list string) : bool :=
  match l with [] => true | _ => false end.

(** ** The data model *)

(** [rooms: roomId -> { members: Set<id>, pass: string|null }] *)
Record room : Type := Room { members : list string; pass : option string }.

(** [invites: inviteId -> { roomId, fromId, toId, createdAt }] *)
Record invite : Type :=
  Invite { inv_roomId : string; fromId : string; toId : string; createdAt : Z }.

(** The process-wide state: the four [Map]s of the server, the connected
    sockets of the transport ([io.sockets.sockets], each with its
    [socket.data.id]) and the sockets that passed the middleware and wait for
    their [connection] handler. *)
Record state : Type := State {
  online : gmap string string;
  rooms : gmap string room;
  invites : gmap string invite;
  userRooms : gmap string (list string);
  sockets : gmap string string;
  handshaken : gmap string string
}.

Definition init : state := State ∅ ∅ ∅ ∅ ∅ ∅.

Definition set_online (f : gmap string string) (s : state) : state :=
  State f (rooms s) (invites s) (userRooms s) (sockets s) (handshaken s).
Definition set_rooms (f : gmap string room) (s : state) : state :=
  State (online s) f (invites s) (userRooms s) (sockets s) (handshaken s).
Definition set_invites (f : gmap string invite) (s : state) : state :=
  State (online s) (rooms s) f (userRooms s) (sockets s) (handshaken s).
Definition set_userRooms (f : gmap string (list string)) (s : state) : state :=
  State (online s) (rooms s) (invites s) f (sockets s) (handshaken s).
Definition set_sockets (f : gmap string string) (s : state) : state :=
  State (online s) (rooms s) (invites s) (userRooms s) f (handshaken s).
Definition set_handshaken (f : gmap string string) (s : state) : state :=
  State (online s) (rooms s) (invites s) (userRooms s) (sockets s) f.

(** [m.get(k)] for a key received from a client: only a string can be a key
    of the server's maps. *)
Definition map_get {V : Type} (m : gmap string V) (k : jsval) : option V :=
  match k with
  | JStr s => m !! s
  | _ => None
  end.

(** The truthiness test the code applies to a stored password
    ([r.pass && ...], [!!r.pass]). *)
Definition pass_truthy (p : option string) : bool :=
  match p with
  | Some w => negb (String.eqb w "")
  | None => false
  end.

(** The truthiness test the code applies to [online.get(id)]. *)
Definition sid_truthy (o : option string) : bool :=
  match o with
  | Some sid => negb (String.eqb sid "")
  | None => false
  end.

(** ** Errors, acknowledgments and emitted events *)

(** The error texts of the source. The ones that are not upper-case codes in
    the source are, in order: "Missing id", "ID đang được sử dụng",
    "roomId required", "roomId,peerId required", "Bạn chưa ở phòng",
    "Peer offline/không tồn tại", "Một trong hai bên đã offline",
    "roomId,text required", "Bạn không ở trong phòng". *)
Inductive error : Type :=
  | MISSING_ID
  | ALREADY_IN_USE
  | ROOMID_REQUIRED
  | INVITE_FIELDS_REQUIRED
  | INVITER_NOT_A_MEMBER
  | PEER_OFFLINE
  | PARTIES_OFFLINE
  | SEND_FIELDS_REQUIRED
  | NOT_A_MEMBER
  | ROOM_EXISTS
  | ROOM_NOT_FOUND
  | ALREADY_IN_ROOM
  | WRONG_PASSWORD
  | PEER_ALREADY_IN_ROOM
  | INVITE_NOT_FOUND
  | UNAUTHORIZED.

(** The object passed to the acknowledgment callback. *)
Inductive ack : Type :=
  | AckErr (e : error)                                        (* { ok: false, error } *)
  | AckExists (found locked : bool)                           (* { ok: true, exists, locked } *)
  | AckRoom (roomId : string) (mem : list string) (locked : bool)
  | AckInvite (inviteId : string)                             (* { ok: true, inviteId } *)
  | AckOk                                                     (* { ok: true } *)
  | AckSent (id : string).                                    (* { ok: true, id } *)

(** The text of a [room:system] notice. *)
Inductive notice : Type :=
  | N_created (who : string) (locked : bool)
  | N_joined (who : string)
  | N_joined_invited (who : string)
  | N_left (who : string)
  | N_left_disconnected (who : string).

Inductive payload : Type :=
  | UserError (e : error)
  | UserRegistered (id : string)
  | RoomSystem (roomId : string) (text : notice) (at_ : Z)
  | RoomIncoming (inviteId roomId from : string) (at_ : Z)
  | RoomRejected (inviteId by_ : string) (at_ : Z)
  | RoomMessage (id roomId from text : string) (at_ : Z).

Inductive action : Type :=
  | Refuse (e : error)                      (* next(new Error(..)) *)
  | Proceed                                 (* next() *)
  | Reply (a : ack)                         (* ack?.(a) *)
  | SocketEmit (p : payload)                (* socket.emit(..) *)
  | IoTo (target : string) (p : payload)    (* io.to(target).emit(..) *)
  | SocketJoin (sid roomId : string)        (* <socket sid>.join(roomId) *)
  | SocketLeave (sid roomId : string)       (* <socket sid>.leave(roomId) *)
  | SocketDisconnect.                       (* socket.disconnect(true) *)

(** ** Helpers of the source *)

(** [getUserRooms(uid)]: creates the entry when it is missing. *)
Definition getUserRooms (uid : string) (ur : gmap string (list string))
  : gmap string (list string) * list string :=
  match ur !! uid with
  | Some l => (ur, l)
  | None => (<[uid := []]> ur, [])
  end.

(** [getUserRooms(uid).add(rid)] *)
Definition track (uid rid : string) (ur : gmap string (list string))
  : gmap string (list string) :=
  let '(ur1, l) := getUserRooms uid ur in <[uid := set_add rid l]> ur1.

(** [getUserRooms(uid).delete(rid)] *)
Definition untrack (uid rid : string) (ur : gmap string (list string))
  : gmap string (list string) :=
  let '(ur1, l) := getUserRooms uid ur in <[uid := set_delete rid l]> ur1.

(** [ensureRoom(roomId)] *)
Definition ensureRoom (s : state) (rid : string) : option room := rooms s !! rid.

(** [inRoom(roomId, userId)] *)
Definition inRoom (s : state) (rid uid : string) : bool :=
  match ensureRoom s rid with
  | Some r => set_has uid (members r)
  | None => false
  end.

(** ** The handlers *)

(** The [io.use] middleware, run at the handshake of socket [sid] with
    [raw = socket.handshake.auth?.id]. *)
Definition middleware (s : state) (sid : string) (raw : jsval)
  : state * list action :=
  if negb (truthy raw) then (s, [Refuse MISSING_ID]) else
  let id := norm_id raw in
  let existingSid := online s !! id in
  if sid_truthy existingSid
     && bool_decide (is_Some (existingSid ≫= λ e, sockets s !! e))
  then (s, [Refuse ALREADY_IN_USE])
  else (set_handshaken (<[sid := id]> (handshaken s)) s, [Proceed]).

(** The head of the [connection] handler, for a socket whose
    [socket.data.id] is [me]. A refused socket returns before any event
    handler is attached, its [disconnect] handler included. *)
Definition on_connection (s : state) (me sid : string) : state * list action :=
  let s0 := set_handshaken (delete sid (handshaken s)) s in
  let prev := online s !! me in
  if sid_truthy prev && bool_decide (prev ≠ Some sid)
  then (s0, [SocketEmit (UserError ALREADY_IN_USE); SocketDisconnect])
  else (set_sockets (<[sid := me]> (sockets s))
          (set_online (<[me := sid]> (online s)) s0),
        [SocketEmit (UserRegistered me)]).

(** [room:exists] *)
Definition room_exists (s : state) (roomId : jsval) : state * list action :=
  if negb (truthy roomId) then (s, [Reply (AckErr ROOMID_REQUIRED)]) else
  let r := rooms s !! trim (js_String roomId) in
  (s, [Reply (AckExists (bool_decide (is_Some r))
                        (match r with Some r => pass_truthy (pass r) | None => false end))]).

(** [room:create] *)
Definition room_create (s : state) (me sid : string) (roomId password : jsval)
    (now : Z) : state * list action :=
  if negb (truthy roomId) then (s, [Reply (AckErr ROOMID_REQUIRED)]) else
  let rid := norm_id roomId in
  if bool_decide (is_Some (rooms s !! rid)) then (s, [Reply (AckErr ROOM_EXISTS)]) else
  let pw := if truthy password then Some (js_String password) else None in
  let mem := [me] in
  let s1 := set_rooms (<[rid := Room mem pw]> (rooms s)) s in
  let s2 := set_userRooms (track me rid (userRooms s1)) s1 in
  (s2, [SocketJoin sid rid;
        IoTo rid (RoomSystem rid (N_created me (pass_truthy pw)) now);
        Reply (AckRoom rid mem (pass_truthy pw))]).

(** [room:join] *)
Definition room_join (s : state) (me sid : string) (roomId password : jsval)
    (now : Z) : state * list action :=
  if negb (truthy roomId) then (s, [Reply (AckErr ROOMID_REQUIRED)]) else
  let rid := norm_id roomId in
  match rooms s !! rid with
  | None => (s, [Reply (AckErr ROOM_NOT_FOUND)])
  | Some r =>
      if set_has me (members r) then (s, [Reply (AckErr ALREADY_IN_ROOM)]) else
      if pass_truthy (pass r)
         && bool_decide (Some (js_String (js_or password (JStr ""))) ≠ pass r)
      then (s, [Reply (AckErr WRONG_PASSWORD)]) else
      let r1 := Room (set_add me (members r)) (pass r) in
      (set_rooms (<[rid := r1]> (rooms s)) s,
       [SocketJoin sid rid;
        IoTo rid (RoomSystem rid (N_joined me) now);
        Reply (AckRoom rid (members r1) (pass_truthy (pass r1)))])
  end.

(** [room:invite]; [tok] is the generated invite id. *)
Definition room_invite (s : state) (me : string) (roomId peerId : jsval)
    (now : Z) (tok : string) : state * list action :=
  if negb (truthy roomId) || negb (truthy peerId)
  then (s, [Reply (AckErr INVITE_FIELDS_REQUIRED)]) else
  let rid := norm_id roomId in
  let peer := trim (js_String peerId) in
  match rooms s !! rid with
  | None => (s, [Reply (AckErr ROOM_NOT_FOUND)])
  | Some r =>
      if negb (set_has me (members r)) then (s, [Reply (AckErr INVITER_NOT_A_MEMBER)]) else
      if set_has peer (members r) then (s, [Reply (AckErr PEER_ALREADY_IN_ROOM)]) else
      match online s !! peer with
      | Some peerSid =>
          if negb (sid_truthy (Some peerSid)) then (s, [Reply (AckErr PEER_OFFLINE)]) else
          (set_invites (<[tok := Invite rid me peer now]> (invites s)) s,
           [IoTo peerSid (RoomIncoming tok rid me now);
            Reply (AckInvite tok)])
      | None => (s, [Reply (AckErr PEER_OFFLINE)])
      end
  end.

(** [io.sockets.sockets.get(sid)?.join(rid)] *)
Definition join_if_connected (s : state) (sid rid : string) : list action :=
  match sockets s !! sid with
  | Some _ => [SocketJoin sid rid]
  | None => []
  end.

(** [room:accept] *)
Definition room_accept (s : state) (me : string) (inviteId : jsval) (now : Z)
  : state * list action :=
  match inviteId, map_get (invites s) inviteId with
  | JStr tok, Some inv =>
      if bool_decide (toId inv ≠ me) then (s, [Reply (AckErr UNAUTHORIZED)]) else
      let rid := inv_roomId inv in
      match rooms s !! rid with
      | None =>
          (set_invites (delete tok (invites s)) s, [Reply (AckErr ROOM_NOT_FOUND)])
      | Some r =>
          match online s !! fromId inv, online s !! toId inv with
          | Some fromSid, Some toSid =>
              if negb (sid_truthy (Some fromSid)) || negb (sid_truthy (Some toSid))
              then (set_invites (delete tok (invites s)) s,
                    [Reply (AckErr PARTIES_OFFLINE)])
              else
                let r1 := Room (set_add (toId inv) (set_add (fromId inv) (members r)))
                               (pass r) in
                let s1 := set_rooms (<[rid := r1]> (rooms s)) s in
                let s2 := set_userRooms
                            (track (toId inv) rid (track (fromId inv) rid (userRooms s1)))
                            s1 in
                let s3 := set_invites (delete tok (invites s2)) s2 in
                (s3,
                 join_if_connected s fromSid rid ++ join_if_connected s toSid rid ++
                 [IoTo rid (RoomSystem rid (N_joined_invited me) now);
                  Reply (AckRoom rid (members r1) (pass_truthy (pass r1)))])
          | _, _ =>
              (set_invites (delete tok (invites s)) s, [Reply (AckErr PARTIES_OFFLINE)])
          end
      end
  | _, _ => (s, [Reply (AckErr INVITE_NOT_FOUND)])
  end.

(** [room:reject] *)
Definition room_reject (s : state) (me : string) (inviteId : jsval) (now : Z)
  : state * list action :=
  match inviteId, map_get (invites s) inviteId with
  | JStr tok, Some inv =>
      if bool_decide (toId inv = me) then
        (set_invites (delete tok (invites s)) s,
         match online s !! fromId inv with
         | Some fromSid =>
             if sid_truthy (Some fromSid)
             then [IoTo fromSid (RoomRejected tok me now)] else []
         | None => []
         end ++ [Reply AckOk])
      else (s, [Reply AckOk])
  | _, _ => (s, [Reply AckOk])
  end.

(** [room:leave]; the room key is used as received, neither trimmed nor cut. *)
Definition room_leave (s : state) (me sid : string) (roomId : jsval) (now : Z)
  : state * list action :=
  if negb (truthy roomId) then (s, [Reply (AckErr ROOMID_REQUIRED)]) else
  match roomId, map_get (rooms s) roomId with
  | JStr rid, Some r =>
      if set_has me (members r) then
        let r1 := Room (set_delete me (members r)) (pass r) in
        let s1 := set_rooms (<[rid := r1]> (rooms s)) s in
        let s2 := set_userRooms (untrack me rid (userRooms s1)) s1 in
        let s3 := if set_empty (members r1)
                  then set_rooms (delete rid (rooms s2)) s2 else s2 in
        (s3, [SocketLeave sid rid;
              IoTo rid (RoomSystem rid (N_left me) now);
              Reply AckOk])
      else (s, [Reply AckOk])
  | _, _ => (s, [Reply AckOk])
  end.

(** [room:send]; [tok] is the generated message id. *)
Definition room_send (s : state) (me : string) (roomId text : jsval) (now : Z)
    (tok : string) : state * list action :=
  if negb (truthy roomId) || negb (truthy text)
  then (s, [Reply (AckErr SEND_FIELDS_REQUIRED)]) else
  match roomId, map_get (rooms s) roomId with
  | JStr rid, Some r =>
      if negb (set_has me (members r)) then (s, [Reply (AckErr NOT_A_MEMBER)]) else
      (s, [IoTo rid (RoomMessage tok rid me (slice0 MAX_TEXT (js_String text)) now);
           Reply (AckSent tok)])
  | _, _ => (s, [Reply (AckErr NOT_A_MEMBER)])
  end.

(** One turn of the loop [for (const roomId of urs)] of the [disconnect]
    handler. *)
Definition disconnect_room (me : string) (now : Z)
    (acc : gmap string room * list action) (rid : string)
  : gmap string room * list action :=
  match acc.1 !! rid with
  | None => acc
  | Some r =>
      let r1 := Room (set_delete me (members r)) (pass r) in
      let rm1 := <[rid := r1]> acc.1 in
      (if set_empty (members r1) then delete rid rm1 else rm1,
       acc.2 ++ [IoTo rid (RoomSystem rid (N_left_disconnected me) now)])
  end.

(** The loop [for (const [invId, it] of invites)] of the [disconnect]
    handler. *)
Definition purge_invites (me : string) (iv : gmap string invite)
  : gmap string invite :=
  filter (λ kv, ¬ (fromId kv.2 = me ∨ toId kv.2 = me)) iv.

(** [disconnect] *)
Definition on_disconnect (s : state) (me sid : string) (now : Z)
  : state * list action :=
  let s1 := if bool_decide (online s !! me = Some sid)
            then set_online (delete me (online s)) s else s in
  let '(ur1, urs) := getUserRooms me (userRooms s1) in
  let '(rm, out) := foldl (disconnect_room me now) (rooms s1, []) urs in
  let s2 := set_userRooms (delete me ur1) (set_rooms rm s1) in
  let s3 := set_invites (purge_invites me (invites s2)) s2 in
  (set_sockets (delete sid (sockets s3)) s3, out).

(** ** The event loop *)

Inductive event : Type :=
  | Handshake (sid : string) (raw : jsval)
  | Connection (sid : string)
  | EvExists (sid : string) (roomId : jsval)
  | EvCreate (sid : string) (roomId password : jsval) (now : Z)
  | EvJoin (sid : string) (roomId password : jsval) (now : Z)
  | EvInvite (sid : string) (roomId peerId : jsval) (now : Z) (tok : string)
  | EvAccept (sid : string) (inviteId : jsval) (now : Z)
  | EvReject (sid : string) (inviteId : jsval) (now : Z)
  | EvLeave (sid : string) (roomId : jsval) (now : Z)
  | EvSend (sid : string) (roomId text : jsval) (now : Z) (tok : string)
  | Disconnect (sid : string) (now : Z).

(** An event of socket [sid] reaches a handler only when the socket went
    through [on_connection] and is still connected; [me] is the identity the
    handlers of that socket closed over. *)
Definition with_socket (s : state) (sid : string)
    (h : string → state * list action) : state * list action :=
  match sockets s !! sid with
  | Some me => h me
  | None => (s, [])
  end.

Definition step (s : state) (e : event) : state * list action :=
  match e with
  | Handshake sid raw => middleware s sid raw
  | Connection sid =>
      match handshaken s !! sid with
      | Some me => on_connection s me sid
      | None => (s, [])
      end
  | EvExists sid roomId => with_socket s sid (λ _, room_exists s roomId)
  | EvCreate sid roomId password now =>
      with_socket s sid (λ me, room_create s me sid roomId password now)
  | EvJoin sid roomId password now =>
      with_socket s sid (λ me, room_join s me sid roomId password now)
  | EvInvite sid roomId peerId now tok =>
      with_socket s sid (λ me, room_invite s me roomId peerId now tok)
  | EvAccept sid inviteId now =>
      with_socket s sid (λ me, room_accept s me inviteId now)
  | EvReject sid inviteId now =>
      with_socket s sid (λ me, room_reject s me inviteId now)
  | EvLeave sid roomId now =>
      with_socket s sid (λ me, room_leave s me sid roomId now)
  | EvSend sid roomId text now tok =>
      with_socket s sid (λ me, room_send s me roomId text now tok)
  | Disconnect sid now =>
      match sockets s !! sid with
      | Some me => on_disconnect s me sid now
      | None => (set_handshaken (delete sid (handshaken s)) s, [])
      end
  end.

(** Running a sequence of events from a state; the actions are collected. *)
Fixpoint run (s : state) (evs : list event) : state * list action :=
  match evs with
  | [] => (s, [])
  | e :: evs' =>
      let '(s1, out1) := step s e in
      let '(s2, out2) := run s1 evs' in
      (s2, out1 ++ out2)
  end.

(** The membership set of a room id: empty when the room is not stored. *)
Definition members_of (s : state) (rid : string) : list string :=
  match rooms s !! rid with
  | Some r => members r
  | None => []
  end.

(** The membership-index entry of an identity: empty when there is none. *)
Definition index_of (s : state) (uid : string) : list string :=
  default [] (userRooms s !! uid).

(** The acknowledgment found in the actions of a handler. *)
Fixpoint reply_of (out : list action) : option ack :=
  match out with
  | [] => None
  | Reply a :: _ => Some a
  | _ :: out' => reply_of out'
  end.

(** The socket an event comes from. *)
Definition event_sid (e : event) : string :=
  match e with
  | Handshake sid _ | Connection sid | EvExists sid _ | EvCreate sid _ _ _
  | EvJoin sid _ _ _ | EvInvite sid _ _ _ _ | EvAccept sid _ _
  | EvReject sid _ _ | EvLeave sid _ _ | EvSend sid _ _ _ _
  | Disconnect sid _ => sid
  end.

(** The transport names every socket by a non-empty generated id. *)
Definition wf_event (e : event) : Prop := event_sid e ≠ "".

(** The states the server can be in when the transport behaves. *)
Inductive reachable : state → Prop :=
  | reachable_init : reachable init
  | reachable_step s e :
      reachable s → wf_event e → reachable (step s e).1.

(** [e] is a [room:invite] whose generated id is [tok]. *)
Definition issues (tok : string) (e : event) : Prop :=
  match e with
  | EvInvite _ _ _ _ t => t = tok
  | _ => False
  end.

(** The room [rid] is stored after every event of [evs], run from [s]. *)
Fixpoint room_kept (rid : string) (s : state) (evs : list event) : Prop :=
  match evs with
  | [] => True
  | e :: evs' =>
      is_Some (rooms (step s e).1 !! rid) ∧ room_kept rid (step s e).1 evs'
  end.

(** ** The invariants *)

(** Every stored room has a member. *)
Definition rooms_nonempty (s : state) : Prop :=
  ∀ rid r, rooms s !! rid = Some r → members r ≠ [].

(** Membership-index consistency, as the specification states it. *)
Definition index_consistent (s : state) : Prop :=
  ∀ uid rid, uid ∈ members_of s rid ↔ rid ∈ index_of s uid.

(** The half of it that every handler keeps: an indexed room is a room the
    identity is a member of. *)
Definition index_sound (s : state) : Prop :=
  ∀ uid rid, rid ∈ index_of s uid → uid ∈ members_of s rid.

(** Every connected socket owns the registry slot of its identity. *)
Definition registry_owned (s : state) : Prop :=
  ∀ sid me, sockets s !! sid = Some me → online s !! me = Some sid.

(** No socket is named by the empty string. *)
Definition sids_nonempty (s : state) : Prop :=
  sockets s !! "" = None ∧ handshaken s !! "" = None.

(** Both parties of every pending invite pass the test [online.get], and
    they are two different identities. *)
Definition invites_online (s : state) : Prop :=
  ∀ tok inv, invites s !! tok = Some inv →
    sid_truthy (online s !! fromId inv) = true ∧
    sid_truthy (online s !! toId inv) = true ∧
    fromId inv ≠ toId inv.

(** Room keys and identities are at most 64 units long. *)
Definition ids_bounded (s : state) : Prop :=
  (∀ rid r, rooms s !! rid = Some r → (String.length rid ≤ 64)%nat) ∧
  (∀ sid me, sockets s !! sid = Some me → (String.length me ≤ 64)%nat) ∧
  (∀ sid me, handshaken s !! sid = Some me → (String.length me ≤ 64)%nat).

(** Every identity with an index entry passes the test [online.get]. *)
Definition index_online (s : state) : Prop :=
  ∀ uid, is_Some (userRooms s !! uid) → sid_truthy (online s !! uid) = true.


(** [e] is a [room:leave] or a [room:send]. *)
Definition leave_or_send (e : event) : Prop :=
  match e with
  | EvLeave _ _ _ | EvSend _ _ _ _ _ => True
  | _ => False
  end.

(** A state whose registry holds a slot for "alice" that points at a socket
    the transport no longer knows. *)
Definition st_stale : state := State {["alice" := "sOld"]} ∅ ∅ ∅ ∅ ∅.

(** ** Definitions used by the proofs and the statements *)

(** What one visit of the cascade does to a room entry. *)
Definition drop_member (me : string) (o : option room) : option room :=
  match o with
  | Some r =>
      let r1 := Room (set_delete me (members r)) (pass r) in
      if set_empty (members r1) then None else Some r1
  | None => None
  end.

(** The notice the cascade broadcasts to a room. *)
Definition left_notice (me : string) (now : Z) (rid : string) : action :=
  IoTo rid (RoomSystem rid (N_left_disconnected me) now).

(** Case analysis on every test of a handler. *)
Ltac handler_cases := repeat case_match; simpl in *; subst; auto.

(** A lookup in a store right after an insertion at one key. *)
Ltac at_inserted :=
  intros [[<- <-] | [? ?]]%lookup_insert_Some; [right; simpl | by auto].

(** ** Scenarios *)

(** "alice" and "bob" go through the handshake and are connected. *)
Definition two_users : list event :=
  [Handshake "sA" (JStr "alice"); Connection "sA";
   Handshake "sB" (JStr "bob"); Connection "sB"].

(** Then "alice" creates the room "r1" without a password. *)
Definition st_open_room : state :=
  (run init (two_users ++ [EvCreate "sA" (JStr "r1") JUndefined 1%Z])).1.

(** Or with the password "secret". *)
Definition st_locked_room : state :=
  (run init (two_users ++ [EvCreate "sA" (JStr "r1") (JStr "secret") 1%Z])).1.

(** "alice" created the locked room "r1" and invited "bob" to it. *)
Definition st_invited : state :=
  (run init (two_users ++ [EvCreate "sA" (JStr "r1") (JStr "secret") 1%Z;
                           EvInvite "sA" (JStr "r1") (JStr "bob") 2%Z "t1"])).1.

(** The result of a successful [room:join] of [me] into room [rid]. *)
Definition joined (s : state) (me sid rid : string) (r : room) (now : Z)
  : state * list action :=
  (set_rooms (<[rid := Room (members r ++ [me]) (pass r)]> (rooms s)) s,
   [SocketJoin sid rid;
    IoTo rid (RoomSystem rid (N_joined me) now);
    Reply (AckRoom rid (members r ++ [me]) (pass_truthy (pass r)))]).

(** The password a join request supplies, as the handler reads it:
    [String(password || "")]. *)
Definition supplied (password : jsval) : string :=
  js_String (js_or password (JStr "")).

(** C5, as the specification states it: on an unlocked room a join by a
    non-member succeeds only when the supplied password is empty or
    missing. *)
Definition unlocked_join_needs_empty_password : Prop :=
  ∀ s me sid roomId password now r,
    truthy roomId = true →
    rooms s !! norm_id roomId = Some r →
    pass r = None →
    me ∉ members r →
    (∃ rid mem locked,
        reply_of (room_join s me sid roomId password now).2
        = Some (AckRoom rid mem locked)) →
    supplied password = "".

(** A text of [n] letters. *)
Fixpoint letters (n : nat) : string :=
  match n with
  | O => EmptyString
  | S n' => String "a"%char (letters n')
  end.

(** C3, as the specification states it: once an accept or a reject has
    consumed a token, a second accept and a second reject of that token both
    fail with INVITE_NOT_FOUND. *)
Definition second_use_not_found : Prop :=
  ∀ s e tok sid now sid' now',
    e = EvAccept sid (JStr tok) now ∨ e = EvReject sid (JStr tok) now →
    is_Some (invites s !! tok) →
    invites (step s e).1 !! tok = None →
    is_Some (sockets (step s e).1 !! sid') →
    reply_of (step (step s e).1 (EvAccept sid' (JStr tok) now')).2
      = Some (AckErr INVITE_NOT_FOUND) ∧
    reply_of (step (step s e).1 (EvReject sid' (JStr tok) now')).2
      = Some (AckErr INVITE_NOT_FOUND).

(** C10, as stated: after a create with a falsy password the acknowledgment
    and [room:exists] report [locked: false], and every later join of that
    room succeeds. *)
Definition every_join_of_unlocked_room_ok : Prop :=
  ∀ s sid me roomId password now,
    sockets s !! sid = Some me →
    truthy roomId = true →
    truthy password = false →
    rooms s !! norm_id roomId = None →
    let rid := norm_id roomId in
    let s1 := (step s (EvCreate sid roomId password now)).1 in
    reply_of (step s (EvCreate sid roomId password now)).2 = Some (AckRoom rid [me] false) ∧
    (∀ sid' q, is_Some (sockets s1 !! sid') → truthy q = true →
       trim (js_String q) = rid →
       reply_of (step s1 (EvExists sid' q)).2 = Some (AckExists true false)) ∧
    (∀ sid' roomId' password' now',
       is_Some (sockets s1 !! sid') → truthy roomId' = true → norm_id roomId' = rid →
       ∃ mem, reply_of (step s1 (EvJoin sid' roomId' password' now')).2
              = Some (AckRoom rid mem false)).

(** "alice" created "A" and "B", "bob" joined both with [room:join]. *)
Definition st_two_rooms : state :=
  (run init (two_users ++
     [EvCreate "sA" (JStr "A") JUndefined 1%Z; EvCreate "sA" (JStr "B") JUndefined 2%Z;
      EvJoin "sB" (JStr "A") JUndefined 3%Z; EvJoin "sB" (JStr "B") JUndefined 4%Z])).1.

(** ** The scenarios of the specification, run on the model *)

(** The replies of the events of a run, in order. *)
Definition replies (evs : list event) : list ack :=
  omap (λ a, match a with Reply r => Some r | _ => None end) (run init evs).2.

Example scenario_rooms :
  replies (two_users ++
    [EvCreate "sA" (JStr "r1") (JStr "secret") 1%Z;
     EvJoin "sB" (JStr "r1") (JStr "nope") 2%Z;
     EvJoin "sB" (JStr "r1") (JStr "secret") 3%Z;
     EvLeave "sA" (JStr "r1") 4%Z;
     EvExists "sB" (JStr "r1");
     EvLeave "sB" (JStr "r1") 5%Z;
     EvExists "sB" (JStr "r1")])
  = [AckRoom "r1" ["alice"] true;
     AckErr WRONG_PASSWORD;
     AckRoom "r1" ["alice"; "bob"] true;
     AckOk;
     AckExists true true;
     AckOk;
     AckExists false false].
Proof. vm_compute. reflexivity. Qed.

Example scenario_invites :
  replies (two_users ++
    [EvCreate "sA" (JStr "r1") (JStr "secret") 1%Z;
     EvInvite "sA" (JStr "r1") (JStr "carol") 2%Z "t0";
     EvInvite "sA" (JStr "r1") (JStr "bob") 3%Z "t1";
     EvAccept "sA" (JStr "t1") 4%Z;
     EvAccept "sB" (JStr "t1") 5%Z;
     EvInvite "sA" (JStr "r1") (JStr "bob") 6%Z "t2"])
  = [AckRoom "r1" ["alice"] true;
     AckErr PEER_OFFLINE;
     AckInvite "t1";
     AckErr UNAUTHORIZED;
     AckRoom "r1" ["alice"; "bob"] true;
     AckErr PEER_ALREADY_IN_ROOM].
Proof. vm_compute. reflexivity. Qed.

Example scenario_identity :
  (run init [Handshake "s1" (JStr "  alice  "); Connection "s1";
             Handshake "s2" (JStr "alice"); Handshake "s3" JUndefined]).2
  = [Proceed; SocketEmit (UserRegistered "alice");
     Refuse ALREADY_IN_USE; Refuse MISSING_ID].
Proof. vm_compute. reflexivity. Qed.

(** ** Strings and sets *)

Example trim_spaces : trim "  room 1	 " = "room 1".
Proof. reflexivity. Qed.

Lemma slice0_length n s : String.length (slice0 n s) = Nat.min n (String.length s).
Proof.
  unfold slice0. revert s.
  induction n as [|n IH]; intros [|c s]; simpl; try reflexivity.
  by rewrite IH.
Qed.

Lemma slice0_short n s : (String.length s ≤ n)%nat → slice0 n s = s.
Proof.
  unfold slice0. revert s.
  induction n as [|n IH]; intros [|c s]; simpl; intros Hle; try reflexivity.
  - lia.
  - f_equal. apply IH. lia.
Qed.

Lemma slice0_prefix n s : ∃ t, s = String.append (slice0 n s) t.
Proof.
  unfold slice0. revert s.
  induction n as [|n IH]; intros [|c s]; simpl.
  - by exists "".
  - by exists (String c s).
  - by exists "".
  - destruct (IH s) as [t Ht]. exists t. rewrite Ht at 1. reflexivity.
Qed.

Lemma norm_id_length v : (String.length (norm_id v) ≤ 64)%nat.
Proof. unfold norm_id. rewrite slice0_length. unfold MAX_ID. lia. Qed.

Lemma truthy_JStr s : truthy (JStr s) = true ↔ s ≠ "".
Proof.
  simpl. destruct (String.eqb_spec s ""); simpl; split; intros; congruence.
Qed.

Lemma set_has_true x l : set_has x l = true ↔ x ∈ l.
Proof. unfold set_has. apply bool_decide_eq_true. Qed.

Lemma set_has_false x l : set_has x l = false ↔ x ∉ l.
Proof. unfold set_has. apply bool_decide_eq_false. Qed.

Lemma elem_of_set_add y x l : y ∈ set_add x l ↔ y = x ∨ y ∈ l.
Proof.
  unfold set_add. destruct (set_has x l) eqn:E.
  - apply set_has_true in E. split; [auto | intros [-> | ?]; auto].
  - rewrite elem_of_app, list_elem_of_singleton. tauto.
Qed.

Lemma set_add_in x l : x ∈ l → set_add x l = l.
Proof. intros H. unfold set_add. apply set_has_true in H. by rewrite H. Qed.

Lemma set_add_notin x l : x ∉ l → set_add x l = l ++ [x].
Proof. intros H. unfold set_add. apply set_has_false in H. by rewrite H. Qed.

Lemma set_add_nonempty x l : set_add x l ≠ [].
Proof.
  intros E. assert (H : x ∈ set_add x l) by (apply elem_of_set_add; auto).
  rewrite E in H. by apply not_elem_of_nil in H.
Qed.

Lemma elem_of_set_delete y x l : y ∈ set_delete x l ↔ y ≠ x ∧ y ∈ l.
Proof. unfold set_delete. rewrite list_elem_of_filter. tauto. Qed.

Lemma set_delete_idemp x l : set_delete x (set_delete x l) = set_delete x l.
Proof.
  unfold set_delete. induction l as [|a l IH]; [done|].
  rewrite filter_cons. case_decide; [|done].
  rewrite filter_cons. case_decide; [|done]. by rewrite IH.
Qed.

Lemma set_empty_true l : set_empty l = true ↔ l = [].
Proof. destruct l; simpl; split; congruence. Qed.

Lemma set_empty_false l : set_empty l = false ↔ l ≠ [].
Proof. destruct l; simpl; split; congruence. Qed.

Lemma set_delete_nil_iff x l : set_delete x l = [] ↔ ∀ y, y ∈ l → y = x.
Proof.
  split.
  - intros E y Hy. destruct (decide (y = x)) as [|Hne]; [done|].
    assert (H : y ∈ set_delete x l) by (by apply elem_of_set_delete).
    rewrite E in H. by apply not_elem_of_nil in H.
  - intros H. destruct (set_delete x l) as [|a t] eqn:E; [done|].
    assert (Ha : a ∈ set_delete x l) by (rewrite E; left).
    apply elem_of_set_delete in Ha as [Hne Hin]. by apply H in Hin.
Qed.

(** ** The disconnect cascade *)

Section Cascade.

Variables (me : string) (now : Z).

Lemma drop_member_idemp o : drop_member me (drop_member me o) = drop_member me o.
Proof.
  destruct o as [r|]; simpl; [|done].
  destruct (set_empty (set_delete me (members r))) eqn:E; simpl; [done|].
  by rewrite set_delete_idemp, E.
Qed.

Lemma disconnect_room_lookup acc a rid :
  (disconnect_room me now acc a).1 !! rid =
  if decide (a = rid) then drop_member me (acc.1 !! rid) else acc.1 !! rid.
Proof.
  unfold disconnect_room. destruct (acc.1 !! a) as [r|] eqn:Ea.
  - case_decide as Hd; subst; simpl.
    + rewrite Ea. simpl.
      destruct (set_empty _); simpl; by simplify_map_eq.
    + destruct (set_empty _); simpl; by simplify_map_eq.
  - case_decide as Hd; subst; simpl; [by rewrite Ea|done].
Qed.

Lemma cascade_lookup urs acc rid :
  (foldl (disconnect_room me now) acc urs).1 !! rid =
  if bool_decide (rid ∈ urs) then drop_member me (acc.1 !! rid) else acc.1 !! rid.
Proof.
  revert acc. induction urs as [|a urs IH]; intros acc; simpl; [done|].
  rewrite IH, disconnect_room_lookup.
  destruct (decide (a = rid)) as [->|Hne].
  - rewrite (bool_decide_eq_true_2 (rid ∈ rid :: urs)) by left.
    case_bool_decide; [apply drop_member_idemp | done].
  - case_bool_decide as Hin.
    + rewrite bool_decide_eq_true_2 by (by right). done.
    + rewrite bool_decide_eq_false_2; [done|].
      intros [?|?]%elem_of_cons; congruence.
Qed.

Lemma cascade_out_sound urs acc a :
  a ∈ (foldl (disconnect_room me now) acc urs).2 →
  a ∈ acc.2 ∨ ∃ rid, rid ∈ urs ∧ a = left_notice me now rid.
Proof.
  revert acc. induction urs as [|x urs IH]; intros acc; simpl; [auto|].
  intros [Ha | (rid & Hin & ->)]%IH.
  - unfold disconnect_room in Ha. destruct (acc.1 !! x); simpl in Ha; [|auto].
    apply elem_of_app in Ha as [?|Ha]; [auto|].
    apply list_elem_of_singleton in Ha as ->. right. exists x. split; [left|done].
  - right. exists rid. split; [by right|done].
Qed.

Lemma cascade_out_mono urs acc a :
  a ∈ acc.2 → a ∈ (foldl (disconnect_room me now) acc urs).2.
Proof.
  revert acc. induction urs as [|x urs IH]; intros acc Ha; simpl; [done|].
  apply IH. unfold disconnect_room. destruct (acc.1 !! x); simpl; [|done].
  apply elem_of_app. auto.
Qed.

Lemma cascade_out_complete urs acc rid :
  rid ∈ urs → NoDup urs → is_Some (acc.1 !! rid) →
  left_notice me now rid ∈ (foldl (disconnect_room me now) acc urs).2.
Proof.
  revert acc. induction urs as [|x urs IH]; intros acc Hin Hnd Hs.
  - by apply not_elem_of_nil in Hin.
  - apply NoDup_cons in Hnd as [Hx Hnd]. simpl.
    apply elem_of_cons in Hin as [->|Hin].
    + apply cascade_out_mono. unfold disconnect_room.
      destruct Hs as [r Hr]. rewrite Hr. simpl.
      apply elem_of_app. right. by apply list_elem_of_singleton.
    + apply IH; [done..|].
      rewrite disconnect_room_lookup. case_decide; [subst; done|done].
Qed.

End Cascade.

Lemma getUserRooms_snd uid ur : (getUserRooms uid ur).2 = default [] (ur !! uid).
Proof. unfold getUserRooms. by destruct (ur !! uid). Qed.

Lemma getUserRooms_delete uid ur : delete uid (getUserRooms uid ur).1 = delete uid ur.
Proof.
  unfold getUserRooms. destruct (ur !! uid); simpl; [done|].
  by rewrite delete_insert_eq.
Qed.

(** The state after [disconnect], one store at a time. *)
Lemma on_disconnect_state s me sid now :
  let s' := (on_disconnect s me sid now).1 in
  online s' = (if bool_decide (online s !! me = Some sid)
               then delete me (online s) else online s) ∧
  (∀ rid, rooms s' !! rid =
          if bool_decide (rid ∈ index_of s me)
          then drop_member me (rooms s !! rid) else rooms s !! rid) ∧
  invites s' = purge_invites me (invites s) ∧
  userRooms s' = delete me (userRooms s) ∧
  sockets s' = delete sid (sockets s) ∧
  handshaken s' = handshaken s.
Proof.
  unfold on_disconnect.
  set (s1 := if bool_decide (online s !! me = Some sid)
             then set_online (delete me (online s)) s else s).
  assert (Hr : rooms s1 = rooms s) by (unfold s1; by case_bool_decide).
  assert (Hu : userRooms s1 = userRooms s) by (unfold s1; by case_bool_decide).
  assert (Hi : invites s1 = invites s) by (unfold s1; by case_bool_decide).
  assert (Hk : sockets s1 = sockets s) by (unfold s1; by case_bool_decide).
  assert (Hh : handshaken s1 = handshaken s) by (unfold s1; by case_bool_decide).
  pose proof (getUserRooms_snd me (userRooms s1)) as Hsnd.
  pose proof (getUserRooms_delete me (userRooms s1)) as Hdel.
  destruct (getUserRooms me (userRooms s1)) as [ur1 urs]. simpl in Hsnd, Hdel.
  pose proof (λ rid, cascade_lookup me now urs (rooms s1, []) rid) as Hc.
  destruct (foldl (disconnect_room me now) (rooms s1, []) urs) as [rm out].
  simpl in *. repeat split.
  - unfold s1. by case_bool_decide.
  - intros rid. rewrite Hc, Hsnd, Hr, Hu. done.
  - by rewrite Hi.
  - by rewrite Hdel, Hu.
  - by rewrite Hk.
  - by rewrite Hh.
Qed.

Lemma on_disconnect_out s me sid now :
  (on_disconnect s me sid now).2 =
  (foldl (disconnect_room me now) (rooms s, []) (index_of s me)).2.
Proof.
  unfold on_disconnect, index_of.
  set (s1 := if bool_decide (online s !! me = Some sid)
             then set_online (delete me (online s)) s else s).
  assert (Hr : rooms s1 = rooms s) by (unfold s1; by case_bool_decide).
  assert (Hu : userRooms s1 = userRooms s) by (unfold s1; by case_bool_decide).
  pose proof (getUserRooms_snd me (userRooms s1)) as Hsnd.
  destruct (getUserRooms me (userRooms s1)) as [ur1 urs]. simpl in Hsnd.
  rewrite Hr, <- Hu, <- Hsnd.
  by destruct (foldl (disconnect_room me now) (rooms s, []) urs).
Qed.

(** ** What one event does to the stores *)

Lemma step_room_after s e rid r' :
  rooms (step s e).1 !! rid = Some r' →
  rooms s !! rid = Some r' ∨
  (members r' ≠ [] ∧ ∀ r, rooms s !! rid = Some r → pass r' = pass r).
Proof.
  destruct e; simpl; unfold with_socket.
  - unfold middleware. handler_cases.
  - unfold on_connection. handler_cases.
  - unfold room_exists. handler_cases.
  - unfold room_create. handler_cases; at_inserted;
      (split; [done|]); intros r Hr;
      match goal with H : bool_decide _ = false |- _ =>
        apply bool_decide_eq_false in H; exfalso; eauto end.
  - unfold room_join. handler_cases; at_inserted;
      (split; [apply set_add_nonempty|]); intros; by simplify_eq.
  - unfold room_invite. handler_cases.
  - unfold room_accept. handler_cases; at_inserted;
      (split; [apply set_add_nonempty|]); intros; by simplify_eq.
  - unfold room_reject. handler_cases.
  - unfold room_leave. handler_cases.
    + rewrite lookup_delete. case_decide; [done|]. rewrite lookup_insert_ne by done. auto.
    + at_inserted. split; [by apply set_empty_false|]. intros; by simplify_eq.
  - unfold room_send. handler_cases.
  - destruct (sockets s !! sid) as [me|]; simpl; [|auto].
    destruct (on_disconnect_state s me sid now) as (_ & Hr & _). rewrite Hr.
    case_bool_decide; [|auto].
    destruct (rooms s !! rid) as [r|]; simpl; [|done].
    destruct (set_empty _) eqn:E; [done|]. intros [= <-]. right. simpl.
    split; [by apply set_empty_false|]. by intros ? [= <-].
Qed.

Lemma reachable_rooms_nonempty s : reachable s → rooms_nonempty s.
Proof.
  induction 1 as [|s e _ IH _].
  - intros rid r Hl. simpl in Hl. by rewrite lookup_empty in Hl.
  - intros rid r' [Hl | [Hne _]]%step_room_after; [by eapply IH | done].
Qed.

Lemma reachable_run s evs :
  reachable s → Forall wf_event evs → reachable (run s evs).1.
Proof.
  revert s. induction evs as [|e evs IH]; intros s Hs Hwf; simpl; [done|].
  apply Forall_cons in Hwf as [He Hwf].
  pose proof (reachable_step s e Hs He) as Hs1.
  destruct (step s e) as [s1 out1]. simpl in Hs1.
  specialize (IH s1 Hs1 Hwf).
  by destruct (run s1 evs).
Qed.

Lemma sid_truthy_Some sid : sid_truthy (Some sid) = true ↔ sid ≠ "".
Proof.
  simpl. destruct (String.eqb_spec sid ""); simpl; split; intros; congruence.
Qed.

Lemma step_sids_nonempty s e :
  wf_event e → sids_nonempty s → sids_nonempty (step s e).1.
Proof.
  unfold wf_event, sids_nonempty. intros Hwf [Hs Hh].
  destruct e; simpl in *; unfold with_socket.
  - unfold middleware. handler_cases. by rewrite lookup_insert_ne.
  - unfold on_connection. handler_cases;
      rewrite ?lookup_insert_ne, ?lookup_delete_ne by done; auto.
  - unfold room_exists. handler_cases.
  - unfold room_create. handler_cases.
  - unfold room_join. handler_cases.
  - unfold room_invite. handler_cases.
  - unfold room_accept. handler_cases.
  - unfold room_reject. handler_cases.
  - unfold room_leave. handler_cases.
  - unfold room_send. handler_cases.
  - destruct (sockets s !! sid) as [me|]; simpl.
    + destruct (on_disconnect_state s me sid now) as (_ & _ & _ & _ & Hk & Hd).
      rewrite Hk, Hd. by rewrite lookup_delete_ne.
    + by rewrite lookup_delete_ne.
Qed.

Lemma step_registry_owned s e :
  sids_nonempty s → registry_owned s → registry_owned (step s e).1.
Proof.
  unfold registry_owned. intros [Hs Hh] Hreg.
  destruct e; simpl in *; unfold with_socket.
  - unfold middleware. handler_cases.
  - unfold on_connection.
    destruct (handshaken s !! sid) as [me|] eqn:Eh; [|done].
    destruct (sid_truthy (online s !! me) && bool_decide (online s !! me ≠ Some sid))
      eqn:Ek; simpl; [done|].
    intros sid' me' [[<- <-] | [Hne Hl]]%lookup_insert_Some.
    + by rewrite lookup_insert_eq.
    + destruct (decide (me = me')) as [<-|Hm]; [|rewrite lookup_insert_ne by done; auto].
      exfalso. pose proof (Hreg _ _ Hl) as Ho. rewrite Ho in Ek.
      apply andb_false_iff in Ek as [Ek | Ek].
      * assert (sid' = "") as ->; [|congruence].
        destruct (decide (sid' = "")) as [|Hn]; [done|].
        apply sid_truthy_Some in Hn. congruence.
      * apply bool_decide_eq_false in Ek. apply Ek. congruence.
  - unfold room_exists. handler_cases.
  - unfold room_create. handler_cases.
  - unfold room_join. handler_cases.
  - unfold room_invite. handler_cases.
  - unfold room_accept. handler_cases.
  - unfold room_reject. handler_cases.
  - unfold room_leave. handler_cases.
  - unfold room_send. handler_cases.
  - destruct (sockets s !! sid) as [me|] eqn:Es; simpl; [|auto].
    destruct (on_disconnect_state s me sid now) as (Ho & _ & _ & _ & Hk & _).
    rewrite Hk, Ho. intros sid' me' [Hne Hl]%lookup_delete_Some.
    case_bool_decide as Hd; [|auto].
    rewrite lookup_delete_ne; [auto|].
    intros <-. apply Hreg in Hl. congruence.
Qed.

Lemma reachable_registry s : reachable s → sids_nonempty s ∧ registry_owned s.
Proof.
  induction 1 as [|s e _ [IH1 IH2] Hwf].
  - split; [by split|]. intros sid me Hl. simpl in Hl. by rewrite lookup_empty in Hl.
  - split; [by apply step_sids_nonempty | by apply step_registry_owned].
Qed.

(** ** The membership index *)

Lemma track_index uid rid ur v :
  default [] (track uid rid ur !! v) =
  if decide (uid = v) then set_add rid (default [] (ur !! v)) else default [] (ur !! v).
Proof.
  unfold track, getUserRooms.
  destruct (ur !! uid) as [l|] eqn:E; case_decide as Hd; subst;
    rewrite ?lookup_insert_eq, ?lookup_insert_ne by done; simpl;
    rewrite ?E; simpl; try done.
Qed.

Lemma untrack_index uid rid ur v :
  default [] (untrack uid rid ur !! v) =
  if decide (uid = v) then set_delete rid (default [] (ur !! v)) else default [] (ur !! v).
Proof.
  unfold untrack, getUserRooms.
  destruct (ur !! uid) as [l|] eqn:E; case_decide as Hd; subst;
    rewrite ?lookup_insert_eq, ?lookup_insert_ne by done; simpl;
    rewrite ?E; simpl; try done.
Qed.

Lemma step_index_sound s e : index_sound s → index_sound (step s e).1.
Proof.
  unfold index_sound. intros Hinv.
  destruct e; simpl in *; unfold with_socket.
  - unfold middleware. handler_cases.
  - unfold on_connection. handler_cases.
  - unfold room_exists. handler_cases.
  - unfold room_create.
    destruct (sockets s !! sid) as [me|]; [|done].
    destruct (negb (truthy roomId)); [done|].
    case_bool_decide as Hex; [done|]. simpl. intros uid rid.
    unfold index_of, members_of. simpl. rewrite track_index, lookup_insert.
    repeat case_decide; subst.
    + intros _. left.
    + intros [-> | Hin]%elem_of_set_add; [done|]. by apply Hinv.
    + intros Hin. apply Hinv in Hin. unfold members_of in Hin.
      destruct (rooms s !! norm_id roomId) eqn:E; [|by apply not_elem_of_nil in Hin].
      exfalso. eauto.
    + apply Hinv.
  - unfold room_join.
    destruct (sockets s !! sid) as [me|]; [|done].
    destruct (negb (truthy roomId)); [done|].
    destruct (rooms s !! norm_id roomId) as [r|] eqn:Er; [|done].
    destruct (set_has me (members r)); [done|].
    destruct (_ && _); [done|]. intros uid rid Hin.
    apply Hinv in Hin. unfold members_of in *. simpl.
    rewrite lookup_insert. case_decide; subst; [|done].
    apply elem_of_set_add. right. by rewrite Er in Hin.
  - unfold room_invite. handler_cases.
  - unfold room_accept.
    destruct (sockets s !! sid) as [me|]; [|done].
    destruct inviteId; try done. simpl.
    destruct (invites s !! s0) as [inv|]; [|done].
    case_bool_decide; [done|].
    destruct (rooms s !! inv_roomId inv) as [r|] eqn:Er; [|done].
    destruct (online s !! fromId inv); [|done].
    destruct (online s !! toId inv); [|done].
    destruct (_ || _); [done|]. intros uid rid.
    pose proof (Hinv uid rid) as Hold. unfold index_of, members_of in *. simpl.
    rewrite !track_index, lookup_insert.
    repeat case_decide; subst; rewrite ?Er in Hold; simpl;
      rewrite ?elem_of_set_add; intuition congruence.
  - unfold room_reject. handler_cases.
  - unfold room_leave.
    destruct (sockets s !! sid) as [me|]; [|done].
    destruct (negb (truthy roomId)); [done|].
    destruct roomId as [| | | |rid0]; try done. simpl.
    destruct (rooms s !! rid0) as [r|] eqn:Er; [|done].
    destruct (set_has me (members r)) eqn:Em; [|done].
    intros uid rid. pose proof (Hinv uid rid) as Hold.
    destruct (set_empty _) eqn:Ee; simpl;
      unfold index_of, members_of in *; simpl; rewrite untrack_index.
    + rewrite lookup_delete. apply set_empty_true in Ee. simpl in Ee.
      repeat case_decide; subst; rewrite ?elem_of_set_delete;
        rewrite ?lookup_insert_ne by done; try tauto.
      intros Hin. apply Hold in Hin. rewrite Er in Hin.
      exfalso. rewrite set_delete_nil_iff in Ee. apply Ee in Hin. congruence.
    + rewrite lookup_insert.
      repeat case_decide; subst; simpl; rewrite ?elem_of_set_delete;
        rewrite ?Er in Hold; try tauto.
      intros Hin. split; [congruence | auto].
  - unfold room_send. handler_cases.
  - destruct (sockets s !! sid) as [me|]; simpl; [|done].
    destruct (on_disconnect_state s me sid now) as (_ & Hr & _ & Hu & _).
    intros uid rid. unfold index_of, members_of. rewrite Hu, Hr.
    rewrite lookup_delete. case_decide as Hd; [subst; simpl|].
    + by intros ?%not_elem_of_nil.
    + intros Hin. apply Hinv in Hin. unfold members_of in Hin.
      case_bool_decide; [|done].
      destruct (rooms s !! rid) as [r|]; simpl; [|done].
      assert (Hm : uid ∈ set_delete me (members r))
        by (apply elem_of_set_delete; split; [congruence | done]).
      destruct (set_empty _) eqn:Ee; [|done].
      apply set_empty_true in Ee. simpl in Ee. rewrite Ee in Hm.
      by apply not_elem_of_nil in Hm.
Qed.

Lemma reachable_index_sound s : reachable s → index_sound s.
Proof.
  induction 1 as [|s e _ IH _]; [|by apply step_index_sound].
  intros uid rid Hin. unfold index_of in Hin. simpl in Hin.
  rewrite lookup_empty in Hin. by apply not_elem_of_nil in Hin.
Qed.

(** ** The invite store *)

Lemma step_invite_absent s e tok :
  ¬ issues tok e → invites s !! tok = None → invites (step s e).1 !! tok = None.
Proof.
  intros Hiss Hn. destruct e; simpl in *; unfold with_socket.
  - unfold middleware. handler_cases.
  - unfold on_connection. handler_cases.
  - unfold room_exists. handler_cases.
  - unfold room_create. handler_cases.
  - unfold room_join. handler_cases.
  - unfold room_invite. handler_cases. by rewrite lookup_insert_ne.
  - unfold room_accept. handler_cases; by apply lookup_delete_None; auto.
  - unfold room_reject. handler_cases; by apply lookup_delete_None; auto.
  - unfold room_leave. handler_cases.
  - unfold room_send. handler_cases.
  - destruct (sockets s !! sid) as [me|]; simpl; [|done].
    destruct (on_disconnect_state s me sid now) as (_ & _ & Hi & _).
    rewrite Hi. unfold purge_invites. apply map_lookup_filter_None. auto.
Qed.

Lemma run_cons s e evs : (run s (e :: evs)).1 = (run (step s e).1 evs).1.
Proof. simpl. destruct (step s e) as [s1 o1]. simpl. by destruct (run s1 evs). Qed.

Lemma run_invite_absent s evs tok :
  Forall (λ e, ¬ issues tok e) evs →
  invites s !! tok = None → invites (run s evs).1 !! tok = None.
Proof.
  revert s. induction evs as [|e evs IH]; intros s Hf Hn; [done|].
  apply Forall_cons in Hf as [He Hf]. rewrite run_cons.
  apply IH; [done|]. by apply step_invite_absent.
Qed.

Lemma run_room_kept s evs rid r :
  room_kept rid s evs → rooms s !! rid = Some r →
  ∃ r2, rooms (run s evs).1 !! rid = Some r2 ∧ pass r2 = pass r.
Proof.
  revert s r. induction evs as [|e evs IH]; intros s r Hk Hr; [by exists r|].
  destruct Hk as [[r1 Hr1] Hk]. rewrite run_cons.
  destruct (IH _ r1 Hk Hr1) as (r2 & Hr2 & Hp). exists r2. split; [done|].
  rewrite Hp. destruct (step_room_after _ _ _ _ Hr1) as [Hsame | [_ Hpass]].
  - congruence.
  - by apply Hpass.
Qed.

(** ** Joining a room *)

Lemma room_join_not_member s me sid roomId password now r :
  truthy roomId = true →
  rooms s !! norm_id roomId = Some r →
  me ∉ members r →
  room_join s me sid roomId password now =
  if pass_truthy (pass r) && bool_decide (Some (supplied password) ≠ pass r)
  then (s, [Reply (AckErr WRONG_PASSWORD)])
  else joined s me sid (norm_id roomId) r now.
Proof.
  intros Ht Hr Hm. unfold room_join, joined, supplied. rewrite Ht, Hr. simpl.
  apply set_has_false in Hm as Hm'. rewrite Hm'.
  destruct (_ && _); [done|]. by rewrite set_add_notin.
Qed.

Lemma room_join_member s me sid roomId password now r :
  truthy roomId = true → rooms s !! norm_id roomId = Some r → me ∈ members r →
  room_join s me sid roomId password now = (s, [Reply (AckErr ALREADY_IN_ROOM)]).
Proof.
  intros Ht Hr Hm. unfold room_join. rewrite Ht, Hr. simpl.
  apply set_has_true in Hm. by rewrite Hm.
Qed.

(** C6. A join by an identity that is already a member of the room is
    answered ALREADY_IN_ROOM and changes nothing, whatever password comes with
    it; the handler tests the existence of the room first (ROOM_NOT_FOUND),
    then the membership of the caller, and the password last
    (WRONG_PASSWORD). *)
Theorem join_check_order s me sid roomId password now :
  truthy roomId = true →
  let res := room_join s me sid roomId password now in
  (rooms s !! norm_id roomId = None →
     res = (s, [Reply (AckErr ROOM_NOT_FOUND)])) ∧
  (∀ r, rooms s !! norm_id roomId = Some r → me ∈ members r →
     res = (s, [Reply (AckErr ALREADY_IN_ROOM)])) ∧
  (∀ r, rooms s !! norm_id roomId = Some r → me ∉ members r →
     pass_truthy (pass r) = true → Some (supplied password) ≠ pass r →
     res = (s, [Reply (AckErr WRONG_PASSWORD)])).
Proof.
  intros Ht res. subst res. repeat split.
  - intros Hr. unfold room_join. by rewrite Ht, Hr.
  - intros r Hr Hm. by apply (room_join_member _ _ _ _ _ _ r).
  - intros r Hr Hm Hp Hw. rewrite (room_join_not_member _ _ _ _ _ _ r) by done.
    rewrite Hp. by rewrite bool_decide_eq_true_2.
Qed.

Lemma join_check_order_witness :
  room_join st_locked_room "alice" "sA" (JStr "r1") (JStr "secret") 2%Z =
    (st_locked_room, [Reply (AckErr ALREADY_IN_ROOM)]) ∧
  room_join st_locked_room "alice" "sA" (JStr "r1") (JStr "wrong") 2%Z =
    (st_locked_room, [Reply (AckErr ALREADY_IN_ROOM)]).
Proof.
  split.
  - apply (join_check_order st_locked_room "alice" "sA" (JStr "r1") (JStr "secret") 2%Z
             eq_refl) with (r := Room ["alice"] (Some "secret")).
    + vm_compute. reflexivity.
    + simpl. left.
  - apply (join_check_order st_locked_room "alice" "sA" (JStr "r1") (JStr "wrong") 2%Z
             eq_refl) with (r := Room ["alice"] (Some "secret")).
    + vm_compute. reflexivity.
    + simpl. left.
Defined.

(** C5, counterexample. "bob" joins the open room "r1" with the password
    "abc" and is let in. *)
Lemma unlocked_join_with_password :
  ¬ unlocked_join_needs_empty_password.
Proof.
  intros H.
  specialize (H st_open_room "bob" "sB" (JStr "r1") (JStr "abc") 2%Z
                (Room ["alice"] None)).
  discriminate H.
  - reflexivity.
  - vm_compute. reflexivity.
  - reflexivity.
  - simpl. intros [E | E]%elem_of_cons; [discriminate E | by apply not_elem_of_nil in E].
  - exists "r1", ["alice"; "bob"], false. vm_compute. reflexivity.
Qed.

(** C5, amended. On an unlocked room a join by a non-member succeeds whatever
    password it supplies: no check is made. On a locked room it succeeds when
    [String(password || "")] equals the stored password exactly, and is
    answered WRONG_PASSWORD, with no change, otherwise. *)
Theorem join_password_rule s me sid roomId password now r :
  truthy roomId = true →
  rooms s !! norm_id roomId = Some r →
  me ∉ members r →
  let res := room_join s me sid roomId password now in
  (pass_truthy (pass r) = false → res = joined s me sid (norm_id roomId) r now) ∧
  (pass_truthy (pass r) = true →
     (Some (supplied password) = pass r →
        res = joined s me sid (norm_id roomId) r now) ∧
     (Some (supplied password) ≠ pass r →
        res = (s, [Reply (AckErr WRONG_PASSWORD)]))).
Proof.
  intros Ht Hr Hm res. subst res.
  rewrite (room_join_not_member _ _ _ _ _ _ r) by done.
  split; [intros ->; done|]. intros ->. simpl. split; intros Hs.
  - by rewrite bool_decide_eq_false_2 by (intros Hn; by apply Hn).
  - by rewrite bool_decide_eq_true_2.
Qed.

Lemma join_password_rule_witness :
  room_join st_open_room "bob" "sB" (JStr "r1") (JStr "abc") 2%Z =
    joined st_open_room "bob" "sB" "r1" (Room ["alice"] None) 2%Z ∧
  room_join st_locked_room "bob" "sB" (JStr "r1") (JStr "secret") 2%Z =
    joined st_locked_room "bob" "sB" "r1" (Room ["alice"] (Some "secret")) 2%Z ∧
  room_join st_locked_room "bob" "sB" (JStr "r1") (JStr "Secret") 2%Z =
    (st_locked_room, [Reply (AckErr WRONG_PASSWORD)]).
Proof.
  assert (Hbob : "bob" ∉ ["alice"]).
  { intros [E | E]%elem_of_cons; [discriminate E | by apply not_elem_of_nil in E]. }
  assert (Ho : rooms st_open_room !! norm_id (JStr "r1") = Some (Room ["alice"] None))
    by (vm_compute; reflexivity).
  assert (Hl : rooms st_locked_room !! norm_id (JStr "r1")
               = Some (Room ["alice"] (Some "secret")))
    by (vm_compute; reflexivity).
  split; [|split].
  - exact (proj1 (join_password_rule st_open_room "bob" "sB" (JStr "r1") (JStr "abc")
                    2%Z _ eq_refl Ho Hbob) eq_refl).
  - exact (proj1 (proj2 (join_password_rule st_locked_room "bob" "sB" (JStr "r1")
                           (JStr "secret") 2%Z _ eq_refl Hl Hbob) eq_refl) eq_refl).
  - refine (proj2 (proj2 (join_password_rule st_locked_room "bob" "sB" (JStr "r1")
                            (JStr "Secret") 2%Z _ eq_refl Hl Hbob) eq_refl) _).
    discriminate.
Defined.

(** ** Sending a message *)

Lemma length_letters n : String.length (letters n) = n.
Proof. induction n as [|n IH]; simpl; [done | by rewrite IH]. Qed.

(** C9. A send with a non-empty room id and a non-empty text, by a member of
    the room, is acknowledged ok with the generated message id and
    broadcasts to the room a message whose text is the first 4000 units of
    the input: at most 4000 units long, exactly 4000 when the input is
    longer, the input itself otherwise; nothing is changed and no error is
    raised. When the sender is not a member of the room (or there is no such
    room) the answer is the not-a-member error. *)
Theorem send_truncates s me roomId text now tok :
  truthy roomId = true →
  truthy text = true →
  let t := slice0 MAX_TEXT (js_String text) in
  (∀ rid r, roomId = JStr rid → rooms s !! rid = Some r → me ∈ members r →
     room_send s me roomId text now tok =
       (s, [IoTo rid (RoomMessage tok rid me t now); Reply (AckSent tok)]) ∧
     (String.length t ≤ 4000)%nat ∧
     (4000 < String.length (js_String text) → String.length t = 4000)%nat ∧
     ((String.length (js_String text) ≤ 4000)%nat → t = js_String text) ∧
     (∃ rest, js_String text = String.append t rest)) ∧
  ((∀ r, map_get (rooms s) roomId = Some r → me ∉ members r) →
     room_send s me roomId text now tok = (s, [Reply (AckErr NOT_A_MEMBER)])).
Proof.
  intros Hr Ht t. split.
  - intros rid r -> Hl Hm. split; [|split; [|split; [|split]]].
    + unfold room_send. rewrite Hr, Ht. simpl. rewrite Hl.
      apply set_has_true in Hm. by rewrite Hm.
    + subst t. rewrite slice0_length. unfold MAX_TEXT. lia.
    + subst t. rewrite slice0_length. unfold MAX_TEXT. lia.
    + intros Hle. subst t. by apply slice0_short.
    + apply slice0_prefix.
  - intros Hnm. unfold room_send. rewrite Hr, Ht. simpl.
    destruct roomId as [| | | |rid]; try done. simpl in *.
    destruct (rooms s !! rid) as [r|]; [|done].
    specialize (Hnm r eq_refl). apply set_has_false in Hnm. by rewrite Hnm.
Qed.

Lemma send_truncates_witness :
  room_send st_open_room "alice" (JStr "r1") (JStr (letters 4001)) 7%Z "m1" =
    (st_open_room,
     [IoTo "r1" (RoomMessage "m1" "r1" "alice" (letters 4000) 7%Z);
      Reply (AckSent "m1")]) ∧
  room_send st_open_room "bob" (JStr "r1") (JStr "hi") 7%Z "m2" =
    (st_open_room, [Reply (AckErr NOT_A_MEMBER)]).
Proof.
  split.
  - assert (Hcut : slice0 MAX_TEXT (js_String (JStr (letters 4001))) = letters 4000)
      by (vm_compute; reflexivity).
    rewrite <- Hcut.
    refine (proj1 (proj1 (send_truncates st_open_room "alice" (JStr "r1")
                            (JStr (letters 4001)) 7%Z "m1" eq_refl _)
                     "r1" (Room ["alice"] None) eq_refl _ _)).
    + vm_compute. reflexivity.
    + vm_compute. reflexivity.
    + simpl. left.
  - refine (proj2 (send_truncates st_open_room "bob" (JStr "r1") (JStr "hi") 7%Z "m2"
                     eq_refl eq_refl) _).
    intros r Hr. assert (r = Room ["alice"] None) as ->.
    { vm_compute in Hr. by injection Hr as <-. }
    simpl. intros [E | E]%elem_of_cons; [discriminate E | by apply not_elem_of_nil in E].
Defined.

(** ** Accepting an invite *)

Lemma online_both s a b :
  sid_truthy (online s !! a) = true → sid_truthy (online s !! b) = true →
  ∃ sa sb, online s !! a = Some sa ∧ online s !! b = Some sb ∧
           negb (sid_truthy (Some sa)) || negb (sid_truthy (Some sb)) = false.
Proof.
  intros Ha Hb.
  destruct (online s !! a) as [sa|]; [|done].
  destruct (online s !! b) as [sb|]; [|done].
  exists sa, sb. by rewrite Ha, Hb.
Qed.

Lemma reply_of_app_joins s sid rid out :
  reply_of (join_if_connected s sid rid ++ out) = reply_of out.
Proof. unfold join_if_connected. by destruct (sockets s !! sid). Qed.

(** C7. An accept of a pending invite by its target. When the room of the
    invite is gone, or the test [online.get] fails for the proposer or for the
    target, the invite is deleted, an error is answered, and rooms and
    membership index are unchanged. Otherwise the proposer and the target
    are both members of the room afterwards (nobody else is added; when the
    proposer was a member already only the target is added), both have the
    room in their index entry, the invite is deleted and the answer is ok. *)
Theorem accept_invite s me tok inv now :
  invites s !! tok = Some inv →
  toId inv = me →
  let rid := inv_roomId inv in
  let res := room_accept s me (JStr tok) now in
  (rooms s !! rid = None →
     res = (set_invites (delete tok (invites s)) s, [Reply (AckErr ROOM_NOT_FOUND)])) ∧
  (is_Some (rooms s !! rid) →
   sid_truthy (online s !! fromId inv) = false ∨
   sid_truthy (online s !! toId inv) = false →
     res = (set_invites (delete tok (invites s)) s, [Reply (AckErr PARTIES_OFFLINE)])) ∧
  (rooms (set_invites (delete tok (invites s)) s) = rooms s ∧
   userRooms (set_invites (delete tok (invites s)) s) = userRooms s ∧
   invites (set_invites (delete tok (invites s)) s) !! tok = None) ∧
  (∀ r, rooms s !! rid = Some r →
   sid_truthy (online s !! fromId inv) = true →
   sid_truthy (online s !! toId inv) = true →
     ∃ r', rooms res.1 !! rid = Some r' ∧
           fromId inv ∈ members r' ∧ toId inv ∈ members r' ∧
           (∀ u, u ∈ members r' ↔ u ∈ members r ∨ u = fromId inv ∨ u = toId inv) ∧
           (fromId inv ∈ members r → members r' = set_add (toId inv) (members r)) ∧
           pass r' = pass r ∧
           rid ∈ index_of res.1 (fromId inv) ∧ rid ∈ index_of res.1 (toId inv) ∧
           invites res.1 = delete tok (invites s) ∧
           reply_of res.2 = Some (AckRoom rid (members r') (pass_truthy (pass r)))).
Proof.
  intros Hi Hto rid res. subst res rid.
  assert (Hb : bool_decide (toId inv ≠ me) = false)
    by (by apply bool_decide_eq_false_2; intros Hn; apply Hn).
  split; [|split; [|split]].
  - intros Hr. unfold room_accept. simpl. by rewrite Hi, Hb, Hr.
  - intros [r Hr] Hoff. unfold room_accept, map_get. rewrite Hi, Hb, Hr.
    destruct (online s !! fromId inv) as [sa|]; [|done].
    destruct (online s !! toId inv) as [sb|]; [|done].
    destruct Hoff as [-> | ->]; [done | by rewrite orb_true_r].
  - simpl. split; [done|]. split; [done|]. apply lookup_delete_eq.
  - intros r Hr Ha Hb'.
    destruct (online_both _ _ _ Ha Hb') as (sa & sb & Hsa & Hsb & Hok).
    unfold room_accept, map_get. rewrite Hi, Hb, Hr, Hsa, Hsb, Hok. simpl.
    eexists. split; [apply lookup_insert_eq|]. simpl.
    split; [|split; [|split; [|split; [|split; [|split; [|split; [|split]]]]]]].
    + rewrite !elem_of_set_add. auto.
    + rewrite !elem_of_set_add. auto.
    + intros u. rewrite !elem_of_set_add. tauto.
    + intros Hin. by rewrite (set_add_in (fromId inv)).
    + done.
    + unfold index_of. simpl. rewrite !track_index.
      repeat case_decide; rewrite ?elem_of_set_add; auto; congruence.
    + unfold index_of. simpl. rewrite !track_index.
      repeat case_decide; rewrite ?elem_of_set_add; auto; congruence.
    + done.
    + rewrite !reply_of_app_joins. done.
Qed.

Lemma accept_invite_witness :
  ∃ r', rooms (room_accept st_invited "bob" (JStr "t1") 3%Z).1 !! "r1" = Some r' ∧
        "alice" ∈ members r' ∧ "bob" ∈ members r' ∧
        invites (room_accept st_invited "bob" (JStr "t1") 3%Z).1 = delete "t1" (invites st_invited).
Proof.
  assert (Hi : invites st_invited !! "t1" = Some (Invite "r1" "alice" "bob" 2%Z))
    by (vm_compute; reflexivity).
  destruct (accept_invite st_invited "bob" "t1" _ 3%Z Hi eq_refl) as (_ & _ & _ & H).
  destruct (H (Room ["alice"] (Some "secret"))) as (r' & Hr & Ha & Hb & _ & _ & _ & _ & _ & Hd & _).
  - vm_compute. reflexivity.
  - vm_compute. reflexivity.
  - vm_compute. reflexivity.
  - exists r'. auto.
Defined.

(** ** Invites are single-use *)

(** C3, counterexample. "bob" accepts the invite "t1" and then rejects it:
    the reject is acknowledged ok. *)
Lemma second_reject_acknowledged_ok :
  ¬ second_use_not_found.
Proof.
  intros H.
  destruct (H st_invited (EvAccept "sB" (JStr "t1") 3%Z) "t1" "sB" 3%Z "sB" 4%Z)
    as [_ Hrej].
  - by left.
  - exists (Invite "r1" "alice" "bob" 2%Z). vm_compute. reflexivity.
  - vm_compute. reflexivity.
  - exists "bob". vm_compute. reflexivity.
  - vm_compute in Hrej. discriminate Hrej.
Qed.

(** C3, amended. An accept or a reject sent by the target of a pending
    invite consumes its token. Once an accept or a reject has consumed a
    token, and as long as no later invite is issued under the same token,
    every accept of that token is answered INVITE_NOT_FOUND and every reject
    of it is acknowledged ok; neither changes the state nor notifies
    anybody. *)
Theorem invite_single_use s e tok sid now :
  e = EvAccept sid (JStr tok) now ∨ e = EvReject sid (JStr tok) now →
  is_Some (invites s !! tok) →
  (∀ inv, invites s !! tok = Some inv → sockets s !! sid = Some (toId inv) →
     invites (step s e).1 !! tok = None) ∧
  (invites (step s e).1 !! tok = None →
   ∀ evs sid' me' now',
     Forall (λ e', ¬ issues tok e') evs →
     let s' := (run (step s e).1 evs).1 in
     sockets s' !! sid' = Some me' →
     step s' (EvAccept sid' (JStr tok) now') = (s', [Reply (AckErr INVITE_NOT_FOUND)]) ∧
     step s' (EvReject sid' (JStr tok) now') = (s', [Reply AckOk])).
Proof.
  intros He _. split.
  - intros inv Hi Hs.
    assert (Hb : bool_decide (toId inv ≠ toId inv) = false)
      by (by apply bool_decide_eq_false_2; intros Hn; apply Hn).
    destruct He as [-> | ->]; simpl; unfold with_socket; rewrite Hs.
    + unfold room_accept, map_get. rewrite Hi, Hb.
      repeat case_match; simpl; apply lookup_delete_eq.
    + unfold room_reject, map_get. rewrite Hi.
      rewrite bool_decide_eq_true_2 by done. simpl. apply lookup_delete_eq.
  - intros Hgone evs sid' me' now' Hevs s' Hsock.
    assert (Hn : invites s' !! tok = None) by (by apply run_invite_absent).
    simpl. unfold with_socket. rewrite Hsock.
    unfold room_accept, room_reject, map_get. by rewrite Hn.
Qed.

Lemma invite_single_use_witness :
  let s' := (run (step st_invited (EvReject "sB" (JStr "t1") 3%Z)).1
               [EvSend "sA" (JStr "r1") (JStr "hello") 4%Z "m1"]).1 in
  step s' (EvAccept "sB" (JStr "t1") 5%Z) = (s', [Reply (AckErr INVITE_NOT_FOUND)]) ∧
  step s' (EvReject "sB" (JStr "t1") 5%Z) = (s', [Reply AckOk]).
Proof.
  assert (Hi : invites st_invited !! "t1" = Some (Invite "r1" "alice" "bob" 2%Z))
    by (vm_compute; reflexivity).
  destruct (invite_single_use st_invited (EvReject "sB" (JStr "t1") 3%Z) "t1" "sB" 3%Z)
    as [Hconsumed Hafter].
  - by right.
  - by exists (Invite "r1" "alice" "bob" 2%Z).
  - apply (Hafter (Hconsumed _ Hi ltac:(vm_compute; reflexivity))
             [EvSend "sA" (JStr "r1") (JStr "hello") 4%Z "m1"] "sB" "bob" 5%Z).
    + repeat constructor. simpl. tauto.
    + vm_compute. reflexivity.
Defined.

(** ** Rooms created without a password *)

(** C10, counterexample. "alice" creates "r1" with the empty password and
    joins it again: ALREADY_IN_ROOM. *)
Lemma creator_rejoin_refused :
  ¬ every_join_of_unlocked_room_ok.
Proof.
  intros H.
  destruct (H (run init two_users).1 "sA" "alice" (JStr "r1") (JStr "") 1%Z)
    as (_ & _ & Hjoin).
  - vm_compute. reflexivity.
  - reflexivity.
  - reflexivity.
  - vm_compute. reflexivity.
  - destruct (Hjoin "sA" (JStr "r1") JUndefined 2%Z) as [mem Hmem].
    + exists "alice". vm_compute. reflexivity.
    + reflexivity.
    + reflexivity.
    + vm_compute in Hmem. discriminate Hmem.
Qed.

(** C10, amended. A create with a falsy password (missing, null, empty, false
    or 0) stores the room with no password: the acknowledgment reports
    [locked: false], and so does every [room:exists] that names the room. For
    as long as the room stays stored, whatever events come in between, a
    join by an identity that is not a member succeeds with any password, and
    a join by a member is answered ALREADY_IN_ROOM. *)
Theorem unlocked_create s sid me roomId password now :
  sockets s !! sid = Some me →
  truthy roomId = true →
  truthy password = false →
  rooms s !! norm_id roomId = None →
  let rid := norm_id roomId in
  let s1 := (step s (EvCreate sid roomId password now)).1 in
  reply_of (step s (EvCreate sid roomId password now)).2 = Some (AckRoom rid [me] false) ∧
  rooms s1 !! rid = Some (Room [me] None) ∧
  (∀ sid' me' q, sockets s1 !! sid' = Some me' → truthy q = true →
     trim (js_String q) = rid →
     step s1 (EvExists sid' q) = (s1, [Reply (AckExists true false)])) ∧
  (∀ evs, room_kept rid s1 evs →
     let s2 := (run s1 evs).1 in
     ∃ r2, rooms s2 !! rid = Some r2 ∧ pass r2 = None ∧
     ∀ sid' me' roomId' password' now',
       sockets s2 !! sid' = Some me' → truthy roomId' = true → norm_id roomId' = rid →
       (me' ∉ members r2 →
          step s2 (EvJoin sid' roomId' password' now') = joined s2 me' sid' rid r2 now') ∧
       (me' ∈ members r2 →
          step s2 (EvJoin sid' roomId' password' now')
          = (s2, [Reply (AckErr ALREADY_IN_ROOM)]))).
Proof.
  intros Hs Ht Hp Hr rid s1. set (rid0 := norm_id roomId) in *. subst rid.
  rename rid0 into rid.
  assert (Hstep : step s (EvCreate sid roomId password now) =
            (set_userRooms (track me rid (userRooms s))
               (set_rooms (<[rid := Room [me] None]> (rooms s)) s),
             [SocketJoin sid rid; IoTo rid (RoomSystem rid (N_created me false) now);
              Reply (AckRoom rid [me] false)])).
  { simpl. unfold with_socket. rewrite Hs. unfold room_create.
    rewrite Ht, Hp. simpl. fold rid. by rewrite Hr. }
  assert (Hr1 : rooms s1 !! rid = Some (Room [me] None)).
  { subst s1. rewrite Hstep. simpl. apply lookup_insert_eq. }
  split; [by rewrite Hstep|]. split; [done|]. split.
  - intros sid' me' q Hs' Hq Hk. simpl. unfold with_socket. rewrite Hs'.
    unfold room_exists. by rewrite Hq, Hk, Hr1.
  - intros evs Hkept s2.
    destruct (run_room_kept _ _ _ _ Hkept Hr1) as (r2 & Hr2 & Hp2).
    exists r2. split; [done|]. split; [done|].
    intros sid' me' roomId' password' now' Hs' Ht' Hn'. simpl in Hp2.
    simpl. unfold with_socket. fold s2. rewrite Hs'. split.
    + intros Hm. rewrite (room_join_not_member _ _ _ _ _ _ r2); rewrite ?Hn'; try done.
      by rewrite Hp2.
    + intros Hm.
      apply (room_join_member s2 me' sid' roomId' password' now' r2); by rewrite ?Hn'.
Qed.

Lemma unlocked_create_witness :
  let s1 := (step (run init two_users).1 (EvCreate "sA" (JStr "r1") (JStr "") 1%Z)).1 in
  step s1 (EvJoin "sB" (JStr "r1") (JStr "guess") 2%Z)
  = joined s1 "bob" "sB" "r1" (Room ["alice"] None) 2%Z.
Proof.
  intros s1.
  destruct (unlocked_create (run init two_users).1 "sA" "alice" (JStr "r1") (JStr "") 1%Z)
    as (_ & _ & _ & H).
  - vm_compute. reflexivity.
  - reflexivity.
  - reflexivity.
  - vm_compute. reflexivity.
  - destruct (H [] I) as (r2 & Hr2 & _ & Hj).
    assert (r2 = Room ["alice"] None) as ->.
    { vm_compute in Hr2. by injection Hr2 as <-. }
    apply (Hj "sB" "bob" (JStr "r1") (JStr "guess") 2%Z).
    + vm_compute. reflexivity.
    + reflexivity.
    + reflexivity.
    + simpl. intros [E | E]%elem_of_cons; [discriminate E | by apply not_elem_of_nil in E].
Defined.

(** ** Rooms are stored exactly while they have members *)

Lemma members_of_nonempty s rid :
  rooms_nonempty s → (is_Some (rooms s !! rid) ↔ members_of s rid ≠ []).
Proof.
  intros Hinv. unfold members_of. split.
  - intros [r Hr]. rewrite Hr. by eapply Hinv.
  - destruct (rooms s !! rid); [eauto | done].
Qed.

(** C2. In every reachable state a room is stored if and only if its
    membership set is non-empty. A leave by the last member deletes the room
    in the same step, and so does the disconnect cascade when it removes the
    last member; after any event whatsoever every stored room has a
    member. *)
Theorem room_stored_iff_nonempty s :
  reachable s →
  (∀ rid, is_Some (rooms s !! rid) ↔ members_of s rid ≠ []) ∧
  (∀ sid me rid r now,
     sockets s !! sid = Some me → rid ≠ "" →
     rooms s !! rid = Some r → me ∈ members r → (∀ u, u ∈ members r → u = me) →
     rooms (step s (EvLeave sid (JStr rid) now)).1 !! rid = None) ∧
  (∀ sid me rid r now,
     sockets s !! sid = Some me → rid ∈ index_of s me →
     rooms s !! rid = Some r → (∀ u, u ∈ members r → u = me) →
     rooms (step s (Disconnect sid now)).1 !! rid = None) ∧
  (∀ e rid, is_Some (rooms (step s e).1 !! rid) ↔ members_of (step s e).1 rid ≠ []).
Proof.
  intros Hreach. pose proof (reachable_rooms_nonempty s Hreach) as Hinv.
  split; [|split; [|split]].
  - intros rid. by apply members_of_nonempty.
  - intros sid me rid r now Hs Hne Hr Hm Hlast.
    simpl. unfold with_socket. rewrite Hs. unfold room_leave.
    apply truthy_JStr in Hne. rewrite Hne. simpl. rewrite Hr.
    apply set_has_true in Hm. rewrite Hm.
    apply set_delete_nil_iff in Hlast. rewrite Hlast. simpl.
    apply lookup_delete_eq.
  - intros sid me rid r now Hs Hidx Hr Hlast.
    simpl. rewrite Hs.
    destruct (on_disconnect_state s me sid now) as (_ & Hrooms & _).
    rewrite Hrooms, bool_decide_eq_true_2 by done. rewrite Hr. simpl.
    apply set_delete_nil_iff in Hlast. by rewrite Hlast.
  - intros e rid. apply members_of_nonempty.
    intros rid' r' [Hl | [Hne _]]%step_room_after; [by eapply Hinv | done].
Qed.

(** "alice" is alone in "r1", "bob" is connected. *)
Lemma st_open_room_reachable : reachable st_open_room.
Proof.
  apply reachable_run; [constructor|].
  repeat constructor; discriminate.
Qed.

Lemma room_stored_iff_nonempty_witness :
  rooms (step st_open_room (EvLeave "sA" (JStr "r1") 2%Z)).1 !! "r1" = None ∧
  rooms (step st_open_room (Disconnect "sA" 2%Z)).1 !! "r1" = None.
Proof.
  destruct (room_stored_iff_nonempty st_open_room st_open_room_reachable)
    as (_ & Hleave & Hdisc & _).
  assert (Hlast : ∀ u, u ∈ ["alice"] → u = "alice").
  { intros u [E | E]%elem_of_cons; [done | by apply not_elem_of_nil in E]. }
  split.
  - apply (Hleave "sA" "alice" "r1" (Room ["alice"] None) 2%Z).
    + vm_compute. reflexivity.
    + discriminate.
    + vm_compute. reflexivity.
    + simpl. left.
    + exact Hlast.
  - apply (Hdisc "sA" "alice" "r1" (Room ["alice"] None) 2%Z).
    + vm_compute. reflexivity.
    + assert (Hidx : index_of st_open_room "alice" = ["r1"]) by (vm_compute; reflexivity).
      rewrite Hidx. left.
    + vm_compute. reflexivity.
    + exact Hlast.
Defined.

(** ** One connection per identity *)

(** C4. In every reachable state two connected sockets never carry the same
    identity, and the registry slot of a connected socket's identity points at
    that socket. While a socket is connected under an identity, a handshake
    with that identity is refused with ALREADY_IN_USE, and a second socket
    that got through the handshake earlier is sent ALREADY_IN_USE and
    disconnected in its [connection] handler, before it is registered. On
    disconnect the registry slot is deleted exactly when it points at the
    disconnecting socket. *)
Theorem one_connection_per_identity s :
  reachable s →
  (∀ sid1 sid2 me,
     sockets s !! sid1 = Some me → sockets s !! sid2 = Some me → sid1 = sid2) ∧
  (∀ sid me, sockets s !! sid = Some me → online s !! me = Some sid) ∧
  (∀ sid1 me sid2 raw,
     sockets s !! sid1 = Some me → truthy raw = true → norm_id raw = me →
     step s (Handshake sid2 raw) = (s, [Refuse ALREADY_IN_USE])) ∧
  (∀ sid1 me sid2,
     sockets s !! sid1 = Some me → sid2 ≠ sid1 → handshaken s !! sid2 = Some me →
     step s (Connection sid2) =
       (set_handshaken (delete sid2 (handshaken s)) s,
        [SocketEmit (UserError ALREADY_IN_USE); SocketDisconnect])) ∧
  (∀ t me sid now,
     (online t !! me = Some sid →
        online (on_disconnect t me sid now).1 = delete me (online t)) ∧
     (online t !! me ≠ Some sid →
        online (on_disconnect t me sid now).1 = online t)).
Proof.
  intros Hreach. destruct (reachable_registry s Hreach) as [[Hk _] Hreg].
  assert (Hne : ∀ sid me, sockets s !! sid = Some me → sid_truthy (Some sid) = true).
  { intros sid me Hs. apply sid_truthy_Some. intros ->. congruence. }
  split; [|split; [|split; [|split]]].
  - intros sid1 sid2 me H1 H2. apply Hreg in H1, H2. congruence.
  - exact Hreg.
  - intros sid1 me sid2 raw Hs Ht Hn. simpl. unfold middleware.
    rewrite Ht, Hn, (Hreg _ _ Hs), (Hne _ _ Hs). simpl. rewrite Hs.
    by rewrite bool_decide_eq_true_2 by done.
  - intros sid1 me sid2 Hs Hd Hh. simpl. rewrite Hh. unfold on_connection.
    rewrite (Hreg _ _ Hs), (Hne _ _ Hs).
    by rewrite bool_decide_eq_true_2 by congruence.
  - intros t me sid now.
    destruct (on_disconnect_state t me sid now) as (Ho & _). rewrite Ho. split; intros H.
    + by rewrite bool_decide_eq_true_2.
    + by rewrite bool_decide_eq_false_2.
Qed.

Lemma one_connection_per_identity_witness :
  step st_open_room (Handshake "sC" (JStr " alice ")) =
    (st_open_room, [Refuse ALREADY_IN_USE]) ∧
  online (on_disconnect st_open_room "alice" "sA" 2%Z).1 = delete "alice" (online st_open_room) ∧
  online (on_disconnect st_open_room "alice" "sC" 2%Z).1 = online st_open_room.
Proof.
  destruct (one_connection_per_identity st_open_room st_open_room_reachable)
    as (_ & _ & Hhand & _ & Hdisc).
  split; [|split].
  - apply (Hhand "sA" "alice" "sC" (JStr " alice ")).
    + vm_compute. reflexivity.
    + reflexivity.
    + vm_compute. reflexivity.
  - apply (proj1 (Hdisc st_open_room "alice" "sA" 2%Z)). vm_compute. reflexivity.
  - apply (proj2 (Hdisc st_open_room "alice" "sC" 2%Z)).
    assert (Ho : online st_open_room !! "alice" = Some "sA") by (vm_compute; reflexivity).
    rewrite Ho. discriminate.
Defined.

(** ** The membership index and [room:join] *)

Lemma set_add_NoDup x l : NoDup l → NoDup (set_add x l).
Proof.
  intros Hnd. unfold set_add. destruct (set_has x l) eqn:E; [done|].
  apply set_has_false in E. apply NoDup_app. split; [done|].
  split; [|apply NoDup_singleton].
  intros y Hy ->%list_elem_of_singleton. done.
Qed.

Lemma set_delete_NoDup x l : NoDup l → NoDup (set_delete x l).
Proof. intros Hnd. unfold set_delete. by apply NoDup_filter. Qed.

Lemma step_index_NoDup s e :
  (∀ uid, NoDup (index_of s uid)) → ∀ uid, NoDup (index_of (step s e).1 uid).
Proof.
  intros Hinv uid. pose proof (Hinv uid) as Hu. unfold index_of in *.
  destruct e; simpl in *; unfold with_socket.
  - unfold middleware. handler_cases.
  - unfold on_connection. handler_cases.
  - unfold room_exists. handler_cases.
  - unfold room_create. handler_cases; rewrite track_index;
      case_decide; auto using set_add_NoDup.
  - unfold room_join. handler_cases.
  - unfold room_invite. handler_cases.
  - unfold room_accept. handler_cases; rewrite !track_index;
      repeat case_decide; auto using set_add_NoDup.
  - unfold room_reject. handler_cases.
  - unfold room_leave. handler_cases; rewrite untrack_index;
      case_decide; auto using set_delete_NoDup.
  - unfold room_send. handler_cases.
  - destruct (sockets s !! sid) as [me|]; simpl; [|done].
    destruct (on_disconnect_state s me sid now) as (_ & _ & _ & Hur & _).
    rewrite Hur, lookup_delete. case_decide; [apply NoDup_nil_2 | done].
Qed.

Lemma reachable_index_NoDup s : reachable s → ∀ uid, NoDup (index_of s uid).
Proof.
  induction 1 as [|s e _ IH _]; [|by apply step_index_NoDup].
  intros uid. unfold index_of. simpl. rewrite lookup_empty. apply NoDup_nil_2.
Qed.

(** X17. The cascade, for the rooms the index lists. When the socket of [me]
    disconnects, [me] leaves every room of its index entry, each of these
    rooms that is stored is sent the notice, nothing else is sent, the index
    entry is deleted, and the pending invites from or to [me] are deleted. *)
Lemma disconnect_cascade s sid me now :
  reachable s →
  sockets s !! sid = Some me →
  let res := step s (Disconnect sid now) in
  (∀ rid, rid ∈ index_of s me → me ∉ members_of res.1 rid) ∧
  (∀ rid, rid ∈ index_of s me → left_notice me now rid ∈ res.2) ∧
  (∀ a, a ∈ res.2 → ∃ rid, rid ∈ index_of s me ∧ a = left_notice me now rid) ∧
  userRooms res.1 !! me = None ∧
  (∀ tok inv, invites res.1 !! tok = Some inv ↔
              invites s !! tok = Some inv ∧ fromId inv ≠ me ∧ toId inv ≠ me).
Proof.
  intros Hreach Hs res. subst res. simpl. rewrite Hs.
  destruct (on_disconnect_state s me sid now) as (_ & Hr & Hi & Hu & _).
  rewrite on_disconnect_out.
  split; [|split; [|split; [|split]]].
  - intros rid Hin. unfold members_of. rewrite Hr, bool_decide_eq_true_2 by done.
    destruct (rooms s !! rid) as [r|]; simpl; [|apply not_elem_of_nil].
    destruct (set_empty _); simpl; [apply not_elem_of_nil|].
    rewrite elem_of_set_delete. tauto.
  - intros rid Hin. apply cascade_out_complete; [done | by apply reachable_index_NoDup |].
    simpl. apply reachable_index_sound in Hin; [|done].
    unfold members_of in Hin. destruct (rooms s !! rid); [eauto|].
    by apply not_elem_of_nil in Hin.
  - intros a [Ha | Ha]%cascade_out_sound; [by apply not_elem_of_nil in Ha | done].
  - rewrite Hu. apply lookup_delete_eq.
  - intros tok inv. rewrite Hi. unfold purge_invites.
    rewrite map_lookup_filter_Some. simpl. tauto.
Qed.

(** A join changes the room store only: the index entry of the caller is
    left as it was. *)
Lemma room_join_index s me sid roomId password now :
  userRooms (room_join s me sid roomId password now).1 = userRooms s.
Proof. unfold room_join. handler_cases. Qed.

(** Every join that succeeds from a consistent state yields a state that is
    not: the caller is a member of the room and the room is not in the
    caller's index entry. *)
Lemma join_breaks_consistency s me sid roomId password now r :
  truthy roomId = true →
  rooms s !! norm_id roomId = Some r →
  me ∉ members r →
  pass_truthy (pass r) && bool_decide (Some (supplied password) ≠ pass r) = false →
  index_consistent s →
  let s' := (room_join s me sid roomId password now).1 in
  ((me ∈ members_of s' (norm_id roomId)) ∧
   (norm_id roomId ∉ index_of s' me) ∧
   ¬ index_consistent s').
Proof.
  intros Ht Hr Hm Hp Hc s'.
  assert (Hin : me ∈ members_of s' (norm_id roomId)).
  { subst s'. rewrite (room_join_not_member _ _ _ _ _ _ r), Hp by done.
    unfold joined, members_of. simpl. rewrite lookup_insert_eq. simpl.
    apply elem_of_app. right. by apply list_elem_of_singleton. }
  assert (Hout : norm_id roomId ∉ index_of s' me).
  { unfold index_of. subst s'. rewrite room_join_index.
    intros Hidx. apply Hc in Hidx. unfold members_of in Hidx. by rewrite Hr in Hidx. }
  split; [done|]. split; [done|].
  intros Hc'. apply Hout. by apply Hc'.
Qed.

Lemma st_open_room_consistent : index_consistent st_open_room.
Proof.
  assert (Hr : rooms st_open_room = {["r1" := Room ["alice"] None]})
    by (vm_compute; reflexivity).
  assert (Hu : userRooms st_open_room = {["alice" := ["r1"]]})
    by (vm_compute; reflexivity).
  intros uid rid. unfold members_of, index_of. rewrite Hr, Hu.
  rewrite !lookup_singleton. repeat case_decide; subst; simpl;
    rewrite ?list_elem_of_singleton, ?elem_of_nil; intuition congruence.
Qed.

(** C1. The biconditional does not survive [room:join]. From the state where
    "alice" is alone in "r1" (which is consistent), "bob" joins "r1": the
    join is acknowledged ok, "bob" is in the membership set of "r1", and "r1"
    is not in the index entry of "bob". *)
Theorem join_leaves_index_behind :
  index_consistent st_open_room ∧
  (let res := step st_open_room (EvJoin "sB" (JStr "r1") JUndefined 2%Z) in
   reply_of res.2 = Some (AckRoom "r1" ["alice"; "bob"] false) ∧
   ("bob" ∈ members_of res.1 "r1") ∧
   ("r1" ∉ index_of res.1 "bob") ∧
   ¬ index_consistent res.1).
Proof.
  split; [exact st_open_room_consistent|].
  assert (Hs : sockets st_open_room !! "sB" = Some "bob") by (vm_compute; reflexivity).
  simpl. unfold with_socket. rewrite Hs.
  split; [vm_compute; reflexivity|].
  apply (join_breaks_consistency st_open_room "bob" "sB" (JStr "r1") JUndefined 2%Z
           (Room ["alice"] None)).
  - reflexivity.
  - vm_compute. reflexivity.
  - simpl. intros [E | E]%elem_of_cons; [discriminate E | by apply not_elem_of_nil in E].
  - reflexivity.
  - exact st_open_room_consistent.
Qed.

(** ** Disconnecting after [room:join] *)

(** C8. "bob" belongs to the rooms "A" and "B", which he joined with
    [room:join], and his socket disconnects: no notice is sent and "bob"
    stays in the membership sets of "A" and of "B", although he is no longer
    connected nor registered. For "alice", who created the two rooms, the
    same event sends the two notices and removes her from both. *)
Theorem disconnect_after_join_keeps_member :
  members_of st_two_rooms "A" = ["alice"; "bob"] ∧
  members_of st_two_rooms "B" = ["alice"; "bob"] ∧
  (let res := step st_two_rooms (Disconnect "sB" 5%Z) in
   res.2 = [] ∧
   members_of res.1 "A" = ["alice"; "bob"] ∧
   members_of res.1 "B" = ["alice"; "bob"] ∧
   sockets res.1 !! "sB" = None ∧ online res.1 !! "bob" = None) ∧
  (let res := step st_two_rooms (Disconnect "sA" 5%Z) in
   res.2 = [left_notice "alice" 5%Z "A"; left_notice "alice" 5%Z "B"] ∧
   members_of res.1 "A" = ["bob"] ∧
   members_of res.1 "B" = ["bob"]).
Proof. vm_compute. repeat split. Qed.

(** ** Truthy values print as non-empty strings *)




(** ** Creating a room *)



(** ** Inviting a peer *)

(** X2. An invite is checked in this order: the room must exist
    (ROOM_NOT_FOUND), the caller must be a member of it, the peer must not be
    a member already (PEER_ALREADY_IN_ROOM), the peer must be online. Every
    refusal leaves the state unchanged. Otherwise the invite is stored under
    the generated token, rooms and index are untouched, and the only event
    sent is [room:incoming], to the socket of the peer. *)
Theorem invite_check_order s me roomId peerId now tok :
  truthy roomId = true →
  truthy peerId = true →
  let rid := norm_id roomId in
  let peer := trim (js_String peerId) in
  let res := room_invite s me roomId peerId now tok in
  (rooms s !! rid = None → res = (s, [Reply (AckErr ROOM_NOT_FOUND)])) ∧
  (∀ r, rooms s !! rid = Some r →
     (me ∉ members r → res = (s, [Reply (AckErr INVITER_NOT_A_MEMBER)])) ∧
     (me ∈ members r → peer ∈ members r →
        res = (s, [Reply (AckErr PEER_ALREADY_IN_ROOM)])) ∧
     (me ∈ members r → peer ∉ members r → sid_truthy (online s !! peer) = false →
        res = (s, [Reply (AckErr PEER_OFFLINE)])) ∧
     (∀ peerSid, me ∈ members r → peer ∉ members r →
        online s !! peer = Some peerSid → peerSid ≠ "" →
        res = (set_invites (<[tok := Invite rid me peer now]> (invites s)) s,
               [IoTo peerSid (RoomIncoming tok rid me now); Reply (AckInvite tok)]))).
Proof.
  intros Hr Hp rid peer res. subst res. unfold room_invite.
  rewrite Hr, Hp. simpl. fold rid peer. split.
  - by intros ->.
  - intros r ->. split; [|split; [|split]].
    + intros Hm. apply set_has_false in Hm. by rewrite Hm.
    + intros Hm Hq. apply set_has_true in Hm, Hq. by rewrite Hm, Hq.
    + intros Hm Hq Hoff. apply set_has_true in Hm. apply set_has_false in Hq.
      rewrite Hm, Hq. simpl.
      destruct (online s !! peer) as [ps|]; [|done]. simpl in Hoff. by rewrite Hoff.
    + intros ps Hm Hq Hon Hne. apply set_has_true in Hm. apply set_has_false in Hq.
      rewrite Hm, Hq, Hon. simpl. apply sid_truthy_Some in Hne.
      simpl in Hne. by rewrite Hne.
Qed.

Lemma invite_check_order_witness :
  room_invite st_locked_room "alice" (JStr "r1") (JStr " bob ") 2%Z "t1"
    = (set_invites (<["t1" := Invite "r1" "alice" "bob" 2%Z]> (invites st_locked_room))
         st_locked_room,
       [IoTo "sB" (RoomIncoming "t1" "r1" "alice" 2%Z); Reply (AckInvite "t1")]) ∧
  room_invite st_locked_room "alice" (JStr "r1") (JStr "carol") 2%Z "t1"
    = (st_locked_room, [Reply (AckErr PEER_OFFLINE)]).
Proof.
  assert (Hr : rooms st_locked_room !! norm_id (JStr "r1")
               = Some (Room ["alice"] (Some "secret"))) by (vm_compute; reflexivity).
  assert (Hnot : ∀ x : string, x ≠ "alice" → x ∉ ["alice"]).
  { intros x Hx [E | E]%elem_of_cons; [done | by apply not_elem_of_nil in E]. }
  split.
  - refine (proj2 (proj2 (proj2 (proj2
              (invite_check_order st_locked_room "alice" (JStr "r1") (JStr " bob ") 2%Z "t1"
                 eq_refl eq_refl) _ Hr))) "sB" _ _ _ _).
    + simpl. left.
    + apply Hnot. vm_compute. discriminate.
    + vm_compute. reflexivity.
    + discriminate.
  - refine (proj1 (proj2 (proj2 (proj2
              (invite_check_order st_locked_room "alice" (JStr "r1") (JStr "carol") 2%Z "t1"
                 eq_refl eq_refl) _ Hr))) _ _ _).
    + simpl. left.
    + apply Hnot. vm_compute. discriminate.
    + vm_compute. reflexivity.
Defined.

(** ** Pending invites *)

Lemma step_invites_online s e :
  wf_event e → sids_nonempty s → registry_owned s →
  invites_online s → invites_online (step s e).1.
Proof.
  unfold wf_event, invites_online. intros Hwf [Hk _] Hreg Hinv.
  destruct e; simpl in *; unfold with_socket.
  - unfold middleware. handler_cases.
  - unfold on_connection. handler_cases.
    intros tok inv Hi. destruct (Hinv _ _ Hi) as (Ha & Hb & Hne).
    apply sid_truthy_Some in Hwf.
    split; [|split; [|done]]; rewrite lookup_insert.
    + by destruct (decide (s0 = fromId inv)).
    + by destruct (decide (s0 = toId inv)).
  - unfold room_exists. handler_cases.
  - unfold room_create. handler_cases.
  - unfold room_join. handler_cases.
  - unfold room_invite.
    destruct (sockets s !! sid) as [me|] eqn:Es; [|done].
    destruct (_ || _); [done|].
    destruct (rooms s !! norm_id roomId) as [r|]; [|done].
    destruct (set_has me (members r)) eqn:Em; [|done]. simpl.
    destruct (set_has (trim (js_String peerId)) (members r)) eqn:Ep; [exact Hinv|].
    destruct (online s !! _) as [ps|] eqn:Eo; [|exact Hinv].
    destruct (negb _) eqn:Et; [exact Hinv|]. simpl.
    intros tok' inv [[<- <-] | [_ Hi]]%lookup_insert_Some; [|by eapply Hinv].
    simpl. rewrite (Hreg _ _ Es), Eo. split; [|split].
    + apply sid_truthy_Some. intros ->. congruence.
    + by apply negb_false_iff in Et.
    + intros E. rewrite <- E in Ep. congruence.
  - unfold room_accept. handler_cases;
      intros tok inv [_ Hi]%lookup_delete_Some; by eapply Hinv.
  - unfold room_reject. handler_cases;
      intros tok inv [_ Hi]%lookup_delete_Some; by eapply Hinv.
  - unfold room_leave. handler_cases.
  - unfold room_send. handler_cases.
  - destruct (sockets s !! sid) as [me|] eqn:Es; simpl; [|done].
    destruct (on_disconnect_state s me sid now) as (Ho & _ & Hi & _).
    rewrite Ho, Hi. intros tok inv [Hl Hp]%map_lookup_filter_Some. simpl in Hp.
    destruct (Hinv _ _ Hl) as (Ha & Hb & Hne).
    case_bool_decide; [|done].
    rewrite !lookup_delete_ne by (intros ->; tauto). done.
Qed.

Lemma reachable_invites_online s : reachable s → invites_online s.
Proof.
  induction 1 as [|s e Hreach IH Hwf].
  - intros tok inv Hi. simpl in Hi. by rewrite lookup_empty in Hi.
  - destruct (reachable_registry s Hreach). by apply step_invites_online.
Qed.

(** X3. Both parties of a pending invite are online: every invite is stored
    with a proposer and a target that pass [online.get], and a disconnect
    deletes the invites of the identity it takes offline. So in a reachable
    state an accept by the target is never refused for an offline party: it
    is answered ROOM_NOT_FOUND when the room is gone and ok otherwise. *)
Theorem pending_invite_parties_online s tok inv :
  reachable s →
  invites s !! tok = Some inv →
  sid_truthy (online s !! fromId inv) = true ∧
  sid_truthy (online s !! toId inv) = true ∧
  fromId inv ≠ toId inv ∧
  ∀ now,
    (rooms s !! inv_roomId inv = None →
       reply_of (room_accept s (toId inv) (JStr tok) now).2 = Some (AckErr ROOM_NOT_FOUND)) ∧
    (∀ r, rooms s !! inv_roomId inv = Some r →
       reply_of (room_accept s (toId inv) (JStr tok) now).2
       = Some (AckRoom (inv_roomId inv)
                 (set_add (toId inv) (set_add (fromId inv) (members r)))
                 (pass_truthy (pass r)))).
Proof.
  intros Hreach Hi.
  destruct (reachable_invites_online s Hreach _ _ Hi) as (Ha & Hb & Hne).
  split; [done|]. split; [done|]. split; [done|]. intros now.
  assert (Hd : bool_decide (toId inv ≠ toId inv) = false)
    by (by apply bool_decide_eq_false_2; intros Hn; apply Hn).
  unfold room_accept, map_get. rewrite Hi, Hd. split.
  - by intros ->.
  - intros r ->.
    destruct (online_both _ _ _ Ha Hb) as (sa & sb & -> & -> & ->).
    simpl. by rewrite !reply_of_app_joins.
Qed.

Lemma st_invited_reachable : reachable st_invited.
Proof.
  apply reachable_run; [constructor|].
  repeat constructor; discriminate.
Qed.

Lemma pending_invite_parties_online_witness :
  sid_truthy (online st_invited !! "alice") = true ∧
  sid_truthy (online st_invited !! "bob") = true.
Proof.
  destruct (pending_invite_parties_online st_invited "t1" (Invite "r1" "alice" "bob" 2%Z)
              st_invited_reachable) as (Ha & Hb & _).
  - vm_compute. reflexivity.
  - split; [exact Ha | exact Hb].
Defined.

(** X4. An invite does not need the password: when a member invites a peer
    into a room and the peer accepts next, the peer is a member of the room
    afterwards, whether the room is locked or not, and the token is gone. *)
Theorem invite_then_accept s sid psid me peer roomId peerId now tok now' r :
  reachable s →
  sockets s !! sid = Some me →
  sockets s !! psid = Some peer →
  truthy roomId = true →
  truthy peerId = true →
  trim (js_String peerId) = peer →
  rooms s !! norm_id roomId = Some r →
  me ∈ members r →
  peer ∉ members r →
  let s1 := (step s (EvInvite sid roomId peerId now tok)).1 in
  let res := step s1 (EvAccept psid (JStr tok) now') in
  reply_of (step s (EvInvite sid roomId peerId now tok)).2 = Some (AckInvite tok) ∧
  reply_of res.2
    = Some (AckRoom (norm_id roomId) (members r ++ [peer]) (pass_truthy (pass r))) ∧
  members_of res.1 (norm_id roomId) = members r ++ [peer] ∧
  invites res.1 !! tok = None.
Proof.
  intros Hreach Hs Hps Hr Hp Hpeer Hroom Hm Hnm s1 res.
  destruct (reachable_registry s Hreach) as [[Hk _] Hreg].
  assert (Hps_ne : psid ≠ "") by (intros ->; congruence).
  assert (Hinv : step s (EvInvite sid roomId peerId now tok) =
            (set_invites (<[tok := Invite (norm_id roomId) me peer now]> (invites s)) s,
             [IoTo psid (RoomIncoming tok (norm_id roomId) me now); Reply (AckInvite tok)])).
  { simpl. unfold with_socket. rewrite Hs. unfold room_invite.
    rewrite Hr, Hp. simpl. rewrite Hpeer, Hroom.
    apply set_has_true in Hm as Hm'. apply set_has_false in Hnm as Hnm'.
    rewrite Hm', Hnm', (Hreg _ _ Hps). simpl.
    apply sid_truthy_Some in Hps_ne. simpl in Hps_ne. by rewrite Hps_ne. }
  subst res s1. rewrite Hinv. simpl. split; [done|].
  unfold with_socket. simpl. rewrite Hps.
  unfold room_accept, map_get. simpl. rewrite lookup_insert_eq. simpl.
  rewrite bool_decide_eq_false_2 by (intros Hn; by apply Hn).
  rewrite Hroom, (Hreg _ _ Hs), (Hreg _ _ Hps).
  assert (Hs_ne : sid ≠ "") by (intros ->; congruence).
  apply sid_truthy_Some in Hs_ne, Hps_ne. simpl in Hs_ne, Hps_ne.
  rewrite Hs_ne, Hps_ne. simpl.
  rewrite (set_add_in me) by done. rewrite set_add_notin by done.
  rewrite !reply_of_app_joins. simpl.
  split; [done|]. split.
  - unfold members_of. simpl. by rewrite lookup_insert_eq.
  - apply lookup_delete_eq.
Qed.

Lemma st_locked_room_reachable : reachable st_locked_room.
Proof.
  apply reachable_run; [constructor|].
  repeat constructor; discriminate.
Qed.

Lemma invite_then_accept_witness :
  members_of
    (step (step st_locked_room (EvInvite "sA" (JStr "r1") (JStr "bob") 2%Z "t1")).1
          (EvAccept "sB" (JStr "t1") 3%Z)).1 "r1"
  = ["alice"; "bob"].
Proof.
  refine (proj1 (proj2 (proj2
    (invite_then_accept st_locked_room "sA" "sB" "alice" "bob" (JStr "r1") (JStr "bob")
       2%Z "t1" 3%Z (Room ["alice"] (Some "secret"))
       st_locked_room_reachable _ _ eq_refl eq_refl _ _ _ _)))).
  - vm_compute. reflexivity.
  - vm_compute. reflexivity.
  - vm_compute. reflexivity.
  - vm_compute. reflexivity.
  - simpl. left.
  - simpl. intros [E | E]%elem_of_cons; [discriminate E | by apply not_elem_of_nil in E].
Defined.

(** X5. Only the target of an invite can accept it. In a reachable state an
    accept of a pending token by any other identity, the proposer included,
    is answered UNAUTHORIZED and changes nothing, so the invite stays
    pending; an invite id that is not a string is answered
    INVITE_NOT_FOUND. *)
Theorem accept_only_by_target s sid me tok inv now :
  reachable s →
  sockets s !! sid = Some me →
  invites s !! tok = Some inv →
  (me ≠ toId inv →
     step s (EvAccept sid (JStr tok) now) = (s, [Reply (AckErr UNAUTHORIZED)])) ∧
  (me = fromId inv →
     step s (EvAccept sid (JStr tok) now) = (s, [Reply (AckErr UNAUTHORIZED)])) ∧
  (∀ v, (∀ t, v ≠ JStr t) →
     step s (EvAccept sid v now) = (s, [Reply (AckErr INVITE_NOT_FOUND)])).
Proof.
  intros Hreach Hs Hi.
  destruct (reachable_invites_online s Hreach _ _ Hi) as (_ & _ & Hne).
  assert (Hother : me ≠ toId inv →
            step s (EvAccept sid (JStr tok) now) = (s, [Reply (AckErr UNAUTHORIZED)])).
  { intros Hm. simpl. unfold with_socket. rewrite Hs.
    unfold room_accept, map_get. rewrite Hi.
    by rewrite bool_decide_eq_true_2 by congruence. }
  split; [done|]. split.
  - intros ->. by apply Hother.
  - intros v Hv. simpl. unfold with_socket. rewrite Hs. unfold room_accept.
    destruct v as [| | | |t]; try done. by destruct (Hv t).
Qed.

Lemma accept_only_by_target_witness :
  step st_invited (EvAccept "sA" (JStr "t1") 3%Z)
  = (st_invited, [Reply (AckErr UNAUTHORIZED)]).
Proof.
  refine (proj1 (proj2 (accept_only_by_target st_invited "sA" "alice" "t1"
            (Invite "r1" "alice" "bob" 2%Z) 3%Z st_invited_reachable _ _)) eq_refl).
  - vm_compute. reflexivity.
  - vm_compute. reflexivity.
Defined.

(** ** Rejecting an invite *)

(** X6. A reject is always acknowledged ok and never touches rooms, index or
    registry. In a reachable state a reject by the target of a pending invite
    deletes the invite and sends [room:rejected] to the socket of the
    proposer, who is online; a reject by anybody else, or of an unknown
    token, does nothing. *)
Theorem reject_invite s sid me inviteId now :
  reachable s →
  sockets s !! sid = Some me →
  let res := step s (EvReject sid inviteId now) in
  reply_of res.2 = Some AckOk ∧
  rooms res.1 = rooms s ∧ userRooms res.1 = userRooms s ∧ online res.1 = online s ∧
  (∀ tok inv, inviteId = JStr tok → invites s !! tok = Some inv → toId inv = me →
     ∃ fromSid, online s !! fromId inv = Some fromSid ∧
       res = (set_invites (delete tok (invites s)) s,
              [IoTo fromSid (RoomRejected tok me now); Reply AckOk])) ∧
  ((∀ inv, map_get (invites s) inviteId = Some inv → toId inv ≠ me) →
     res = (s, [Reply AckOk])).
Proof.
  intros Hreach Hs res. subst res. simpl. unfold with_socket. rewrite Hs.
  split; [|split; [|split; [|split; [|split]]]].
  - unfold room_reject. repeat case_match; simpl; done.
  - unfold room_reject. repeat case_match; simpl; done.
  - unfold room_reject. repeat case_match; simpl; done.
  - unfold room_reject. repeat case_match; simpl; done.
  - intros tok inv -> Hi Hto.
    destruct (reachable_invites_online s Hreach _ _ Hi) as (Ha & _ & _).
    destruct (online s !! fromId inv) as [fs|] eqn:Eo; [|done].
    exists fs. split; [done|]. unfold room_reject, map_get.
    rewrite Hi, bool_decide_eq_true_2, Eo, Ha by done. done.
  - intros Hno. unfold room_reject.
    destruct inviteId as [| | | |tok]; try done. simpl in *.
    destruct (invites s !! tok) as [inv|]; [|done].
    by rewrite bool_decide_eq_false_2 by (by apply Hno).
Qed.

Lemma reject_invite_witness :
  step st_invited (EvReject "sB" (JStr "t1") 3%Z)
  = (set_invites (delete "t1" (invites st_invited)) st_invited,
     [IoTo "sA" (RoomRejected "t1" "bob" 3%Z); Reply AckOk]).
Proof.
  assert (Hs : sockets st_invited !! "sB" = Some "bob") by (vm_compute; reflexivity).
  assert (Hi : invites st_invited !! "t1" = Some (Invite "r1" "alice" "bob" 2%Z))
    by (vm_compute; reflexivity).
  destruct (reject_invite st_invited "sB" "bob" (JStr "t1") 3%Z
              st_invited_reachable Hs) as (_ & _ & _ & _ & H & _).
  destruct (H "t1" _ eq_refl Hi eq_refl) as (fs & Hfs & Hres).
  assert (fs = "sA") as ->.
  { vm_compute in Hfs. by injection Hfs as <-. }
  exact Hres.
Defined.

(** ** Leaving a room *)

Lemma set_delete_app_last x l : x ∉ l → set_delete x (l ++ [x]) = l.
Proof.
  intros Hx. unfold set_delete. rewrite filter_app.
  rewrite filter_cons, decide_False by (by intros Hn; apply Hn).
  rewrite filter_nil, app_nil_r.
  induction l as [|a l IH]; [done|].
  apply not_elem_of_cons in Hx as [Hne Hx].
  rewrite filter_cons, decide_True by congruence. by rewrite IH.
Qed.

(** X7. A leave of a room the caller is not a member of, or of a key that
    names no room, is acknowledged ok, changes nothing and sends nothing. A
    leave by a member removes the caller, and nobody else, from the
    membership set (the room is deleted when nobody is left), removes the
    room from the caller's index entry, keeps the other rooms and the other
    index entries as they were, and sends the notice to the room. *)
Theorem leave_room s me sid roomId now :
  truthy roomId = true →
  let res := room_leave s me sid roomId now in
  ((∀ r, map_get (rooms s) roomId = Some r → me ∉ members r) →
     res = (s, [Reply AckOk])) ∧
  (∀ rid r, roomId = JStr rid → rooms s !! rid = Some r → me ∈ members r →
     res.2 = [SocketLeave sid rid; IoTo rid (RoomSystem rid (N_left me) now); Reply AckOk] ∧
     members_of res.1 rid = set_delete me (members r) ∧
     (rid ∉ index_of res.1 me) ∧
     (∀ rid', rid' ≠ rid → rooms res.1 !! rid' = rooms s !! rid') ∧
     (∀ u, u ≠ me → index_of res.1 u = index_of s u)).
Proof.
  intros Ht res. subst res. unfold room_leave. rewrite Ht. simpl. split.
  - intros Hno. destruct roomId as [| | | |rid]; try done. simpl in *.
    destruct (rooms s !! rid) as [r|]; [|done].
    specialize (Hno r eq_refl). apply set_has_false in Hno. by rewrite Hno.
  - intros rid r -> Hr Hm. simpl. rewrite Hr.
    apply set_has_true in Hm. rewrite Hm.
    destruct (set_empty (set_delete me (members r))) eqn:Ee; simpl;
      unfold members_of, index_of; simpl; rewrite untrack_index.
    + apply set_empty_true in Ee. rewrite lookup_delete_eq, Ee.
      split; [done|]. split; [done|]. split; [|split].
      * rewrite decide_True by done. rewrite elem_of_set_delete. tauto.
      * intros rid' Hne. by rewrite lookup_delete_ne, lookup_insert_ne.
      * intros u Hu. rewrite untrack_index. by rewrite decide_False.
    + rewrite lookup_insert_eq. simpl.
      split; [done|]. split; [done|]. split; [|split].
      * rewrite decide_True by done. rewrite elem_of_set_delete. tauto.
      * intros rid' Hne. by rewrite lookup_insert_ne.
      * intros u Hu. rewrite untrack_index. by rewrite decide_False.
Qed.

Lemma leave_room_witness :
  room_leave st_open_room "bob" "sB" (JStr "r1") 2%Z = (st_open_room, [Reply AckOk]) ∧
  members_of (room_leave st_open_room "alice" "sA" (JStr "r1") 2%Z).1 "r1" = [].
Proof.
  split.
  - refine (proj1 (leave_room st_open_room "bob" "sB" (JStr "r1") 2%Z eq_refl) _).
    intros r Hr. assert (r = Room ["alice"] None) as ->.
    { vm_compute in Hr. by injection Hr as <-. }
    simpl. intros [E | E]%elem_of_cons; [discriminate E | by apply not_elem_of_nil in E].
  - refine (proj1 (proj2 (proj2 (leave_room st_open_room "alice" "sA" (JStr "r1") 2%Z
              eq_refl) "r1" (Room ["alice"] None) eq_refl _ _))).
    + vm_compute. reflexivity.
    + simpl. left.
Defined.

(** X8. Join then leave is a round trip on the room store, provided the room
    id is sent in its stored form: [room:join] trims and cuts the id,
    [room:leave] looks it up as received. When a non-member joins a stored
    room under an id equal to its key and leaves it next with the same id,
    the room store is what it was before the join. *)
Theorem join_then_leave s me sid rid password now now' r :
  rid ≠ "" →
  norm_id (JStr rid) = rid →
  rooms s !! rid = Some r →
  members r ≠ [] →
  me ∉ members r →
  pass_truthy (pass r) && bool_decide (Some (supplied password) ≠ pass r) = false →
  let s1 := (room_join s me sid (JStr rid) password now).1 in
  (me ∈ members_of s1 rid) ∧
  rooms (room_leave s1 me sid (JStr rid) now').1 = rooms s.
Proof.
  intros Hne Hnorm Hr Hmem Hm Hp s1. apply truthy_JStr in Hne as Ht.
  assert (Hs1 : s1 = (joined s me sid rid r now).1).
  { subst s1. rewrite (room_join_not_member _ _ _ _ _ _ r); rewrite ?Hnorm; try done.
    by rewrite Hp. }
  rewrite Hs1. unfold joined. simpl. split.
  - unfold members_of. simpl. rewrite lookup_insert_eq. simpl.
    apply elem_of_app. right. by apply list_elem_of_singleton.
  - unfold room_leave. rewrite Ht. simpl. rewrite lookup_insert_eq. simpl.
    rewrite (proj2 (set_has_true me (members r ++ [me])))
      by (apply elem_of_app; right; by apply list_elem_of_singleton).
    rewrite set_delete_app_last by done.
    apply set_empty_false in Hmem. rewrite Hmem. simpl.
    rewrite insert_insert_eq. apply insert_id. by destruct r.
Qed.

Lemma join_then_leave_witness :
  rooms (room_leave (room_join st_locked_room "bob" "sB" (JStr "r1") (JStr "secret") 2%Z).1
           "bob" "sB" (JStr "r1") 3%Z).1
  = rooms st_locked_room.
Proof.
  refine (proj2 (join_then_leave st_locked_room "bob" "sB" "r1" (JStr "secret") 2%Z 3%Z
            (Room ["alice"] (Some "secret")) _ eq_refl _ _ _ eq_refl)).
  - discriminate.
  - vm_compute. reflexivity.
  - discriminate.
  - simpl. intros [E | E]%elem_of_cons; [discriminate E | by apply not_elem_of_nil in E].
Defined.

(** ** Rooms named by a blank id *)

(** X9. A room id made of white space only is truthy, so it passes the
    [roomId required] test, and is trimmed to the empty key: the create
    stores a room under the empty string. No [room:leave] can ever take a
    member out of that room and no [room:send] can reach it, since both
    refuse the empty id and look any other id up as received. *)
Theorem blank_room_id s :
  (∀ me sid roomId password now,
     truthy roomId = true → norm_id roomId = "" → rooms s !! "" = None →
     members_of (room_create s me sid roomId password now).1 "" = [me]) ∧
  (∀ e, leave_or_send e →
     rooms (step s e).1 !! "" = rooms s !! "" ∧
     ∀ p, IoTo "" p ∉ (step s e).2).
Proof.
  split.
  - intros me sid roomId password now Ht Hn Hr.
    unfold room_create. rewrite Ht, Hn. simpl. rewrite Hr. simpl.
    unfold members_of. simpl. by rewrite lookup_insert_eq.
  - intros e He. destruct e; try done; simpl; unfold with_socket;
      destruct (sockets s !! sid) as [me|]; simpl;
      try (split; [done | intros p Hp; by apply not_elem_of_nil in Hp]).
    + unfold room_leave. destruct (truthy roomId) eqn:Ht; simpl.
      2:{ split; [done|]. intros p [E|E]%elem_of_cons; [done | by apply not_elem_of_nil in E]. }
      destruct roomId as [| | | |rid]; simpl;
        try (split; [done|]; intros p [E|E]%elem_of_cons;
             [done | by apply not_elem_of_nil in E]).
      apply truthy_JStr in Ht.
      destruct (rooms s !! rid) as [r|]; simpl;
        [destruct (set_has me (members r)); simpl|];
        try (split; [done|]; intros p [E|E]%elem_of_cons;
             [done | by apply not_elem_of_nil in E]).
      split.
      * destruct (set_empty _); simpl;
          rewrite ?lookup_delete_ne, ?lookup_insert_ne by done; done.
      * intros p Hp. repeat (apply elem_of_cons in Hp as [Hp|Hp]; [by simplify_eq|]).
        by apply not_elem_of_nil in Hp.
    + unfold room_send. destruct (truthy roomId) eqn:Ht; simpl.
      2:{ split; [done|]. intros p [E|E]%elem_of_cons; [done | by apply not_elem_of_nil in E]. }
      destruct (truthy text); simpl.
      2:{ split; [done|]. intros p [E|E]%elem_of_cons; [done | by apply not_elem_of_nil in E]. }
      destruct roomId as [| | | |rid]; simpl;
        try (split; [done|]; intros p [E|E]%elem_of_cons;
             [done | by apply not_elem_of_nil in E]).
      apply truthy_JStr in Ht.
      destruct (rooms s !! rid) as [r|]; simpl;
        [destruct (set_has me (members r)); simpl|];
        try (split; [done|]; intros p [E|E]%elem_of_cons;
             [done | by apply not_elem_of_nil in E]).
      split; [done|].
      intros p Hp. repeat (apply elem_of_cons in Hp as [Hp|Hp]; [by simplify_eq|]).
      by apply not_elem_of_nil in Hp.
Qed.

Lemma blank_room_id_witness :
  members_of (room_create st_open_room "bob" "sB" (JStr "   ") JUndefined 2%Z).1 "" = ["bob"] ∧
  rooms (step (room_create st_open_room "bob" "sB" (JStr "   ") JUndefined 2%Z).1
           (EvLeave "sB" (JStr "   ") 3%Z)).1 !! ""
  = rooms (room_create st_open_room "bob" "sB" (JStr "   ") JUndefined 2%Z).1 !! "".
Proof.
  split.
  - apply (proj1 (blank_room_id st_open_room)); [reflexivity | reflexivity |].
    vm_compute. reflexivity.
  - apply (proj2 (blank_room_id _) (EvLeave "sB" (JStr "   ") 3%Z) I).
Defined.

(** ** What the index holds *)

Lemma track_is_Some uid rid ur v :
  is_Some (track uid rid ur !! v) → v = uid ∨ is_Some (ur !! v).
Proof.
  unfold track, getUserRooms. destruct (decide (v = uid)) as [|Hne]; [auto|].
  destruct (ur !! uid); rewrite !lookup_insert_ne by done; auto.
Qed.

Lemma untrack_is_Some uid rid ur v :
  is_Some (untrack uid rid ur !! v) → v = uid ∨ is_Some (ur !! v).
Proof.
  unfold untrack, getUserRooms. destruct (decide (v = uid)) as [|Hne]; [auto|].
  destruct (ur !! uid); rewrite !lookup_insert_ne by done; auto.
Qed.

Lemma step_index_online s e :
  wf_event e → sids_nonempty s → registry_owned s →
  index_online s → index_online (step s e).1.
Proof.
  unfold wf_event, index_online. intros Hwf [Hk _] Hreg Hinv.
  assert (Hme : ∀ sid me, sockets s !! sid = Some me →
                  sid_truthy (online s !! me) = true).
  { intros sid me Hs. rewrite (Hreg _ _ Hs). apply sid_truthy_Some.
    intros ->. congruence. }
  destruct e; simpl in *; unfold with_socket.
  - unfold middleware. handler_cases.
  - unfold on_connection. handler_cases.
    intros uid Hu. apply Hinv in Hu. apply sid_truthy_Some in Hwf.
    rewrite lookup_insert. by destruct (decide (s0 = uid)).
  - unfold room_exists. handler_cases.
  - unfold room_create.
    destruct (sockets s !! sid) as [me|] eqn:Es; [|done].
    destruct (negb (truthy roomId)); [done|].
    case_bool_decide; [done|]. simpl.
    intros uid [-> | Hu]%track_is_Some; eauto.
  - unfold room_join. handler_cases.
  - unfold room_invite. handler_cases.
  - unfold room_accept.
    destruct (sockets s !! sid) as [me|] eqn:Es; [|done].
    destruct inviteId as [| | | |tok]; try done. simpl.
    destruct (invites s !! tok) as [inv|]; [|done].
    case_bool_decide; [done|].
    destruct (rooms s !! inv_roomId inv) as [r|]; [|done].
    destruct (online s !! fromId inv) as [fs|] eqn:Ef; [|done].
    destruct (online s !! toId inv) as [ts|] eqn:Et; [|done].
    destruct (negb (negb (fs =? "")) || negb (negb (ts =? ""))) eqn:Eb; [done|].
    simpl. apply orb_false_iff in Eb as [Eb1 Eb2].
    apply negb_false_iff in Eb1, Eb2.
    intros uid [-> | [-> | Hu]%track_is_Some]%track_is_Some;
      [by rewrite Et | by rewrite Ef | auto].
  - unfold room_reject. handler_cases.
  - unfold room_leave.
    destruct (sockets s !! sid) as [me|] eqn:Es; [|done].
    destruct (negb (truthy roomId)); [done|].
    destruct roomId as [| | | |rid]; try done. simpl.
    destruct (rooms s !! rid) as [r|]; [|done].
    destruct (set_has me (members r)); [|done].
    assert (∀ uid, is_Some (untrack me rid (userRooms s) !! uid) →
              sid_truthy (online s !! uid) = true) as Hgoal.
    { intros uid [-> | Hu]%untrack_is_Some; eauto. }
    by destruct (set_empty _).
  - unfold room_send. handler_cases.
  - destruct (sockets s !! sid) as [me|] eqn:Es; simpl; [|done].
    destruct (on_disconnect_state s me sid now) as (Ho & _ & _ & Hu & _).
    rewrite Ho, Hu, (Hreg _ _ Es), bool_decide_eq_true_2 by done.
    intros uid Hl. destruct (decide (uid = me)) as [->|Hne].
    + rewrite lookup_delete_eq in Hl. by destruct Hl.
    + rewrite lookup_delete_ne in Hl by done.
      rewrite lookup_delete_ne by done. auto.
Qed.

Lemma reachable_index_online s : reachable s → index_online s.
Proof.
  induction 1 as [|s e Hreach IH Hwf].
  - intros uid [l Hl]. simpl in Hl. by rewrite lookup_empty in Hl.
  - destruct (reachable_registry s Hreach). by apply step_index_online.
Qed.

(** X10. What the membership index lists is true: in a reachable state, a
    room in the index entry of an identity is stored, the identity is in its
    membership set, and the identity is online. *)
Theorem indexed_rooms s uid rid :
  reachable s →
  rid ∈ index_of s uid →
  (∃ r, rooms s !! rid = Some r ∧ uid ∈ members r) ∧
  sid_truthy (online s !! uid) = true.
Proof.
  intros Hreach Hin. split.
  - pose proof (reachable_index_sound s Hreach _ _ Hin) as Hm.
    unfold members_of in Hm. destruct (rooms s !! rid) as [r|]; [eauto|].
    by apply not_elem_of_nil in Hm.
  - apply (reachable_index_online s Hreach). unfold index_of in Hin.
    destruct (userRooms s !! uid); [eauto|]. by apply not_elem_of_nil in Hin.
Qed.

Lemma indexed_rooms_witness :
  (∃ r, rooms st_invited !! "r1" = Some r ∧ "alice" ∈ members r) ∧
  sid_truthy (online st_invited !! "alice") = true.
Proof.
  apply (indexed_rooms st_invited "alice" "r1" st_invited_reachable).
  assert (Hidx : index_of st_invited "alice" = ["r1"]) by (vm_compute; reflexivity).
  rewrite Hidx. left.
Defined.

Lemma disconnect_cascade_witness :
  left_notice "alice" 5%Z "r1" ∈ (step st_invited (Disconnect "sA" 5%Z)).2 ∧
  userRooms (step st_invited (Disconnect "sA" 5%Z)).1 !! "alice" = None.
Proof.
  destruct (disconnect_cascade st_invited "sA" "alice" 5%Z st_invited_reachable)
    as (_ & Hn & _ & Hu & _).
  - vm_compute. reflexivity.
  - split; [|exact Hu]. apply Hn.
    assert (Hidx : index_of st_invited "alice" = ["r1"]) by (vm_compute; reflexivity).
    rewrite Hidx. left.
Defined.

(** ** Registering an identity *)

(** X11. A handshake without an id (missing, null, empty, false or 0) is
    refused with "Missing id" and changes nothing. A handshake with an id
    whose registry slot is free is let through, and the [connection] handler
    that follows registers the socket: the slot of the identity (the id
    trimmed and cut to 64 units) points at the socket, the socket is told
    [user:registered], and rooms, invites and index are untouched. *)
Theorem register_identity s sid raw :
  (truthy raw = false → step s (Handshake sid raw) = (s, [Refuse MISSING_ID])) ∧
  (truthy raw = true → sid_truthy (online s !! norm_id raw) = false →
     let id := norm_id raw in
     let s1 := (step s (Handshake sid raw)).1 in
     let res := step s1 (Connection sid) in
     (step s (Handshake sid raw)).2 = [Proceed] ∧
     res.2 = [SocketEmit (UserRegistered id)] ∧
     online res.1 !! id = Some sid ∧
     sockets res.1 !! sid = Some id ∧
     (String.length id ≤ 64)%nat ∧
     rooms res.1 = rooms s ∧ invites res.1 = invites s ∧ userRooms res.1 = userRooms s).
Proof.
  split.
  - intros Ht. simpl. unfold middleware. by rewrite Ht.
  - intros Ht Hfree id s1 res. subst id.
    assert (Hh : step s (Handshake sid raw)
                 = (set_handshaken (<[sid := norm_id raw]> (handshaken s)) s, [Proceed])).
    { simpl. unfold middleware. rewrite Ht. simpl. by rewrite Hfree. }
    subst res s1. rewrite Hh. simpl. rewrite lookup_insert_eq.
    unfold on_connection. simpl. rewrite Hfree. simpl.
    rewrite !lookup_insert_eq. repeat split. apply norm_id_length.
Qed.

Lemma register_identity_witness :
  online (step (step st_open_room (Handshake "sC" (JStr " carol "))).1 (Connection "sC")).1
    !! "carol" = Some "sC".
Proof.
  refine (proj1 (proj2 (proj2 (proj2 (register_identity st_open_room "sC" (JStr " carol "))
            eq_refl _)))).
  vm_compute. reflexivity.
Defined.

(** X12. A registry slot that points at a socket the transport no longer
    knows is not taken over. The middleware lets the newcomer through,
    because the old socket is not connected; the [connection] handler then
    finds the slot held by another socket id and, without looking at whether
    that socket is alive, sends ALREADY_IN_USE and disconnects the newcomer.
    The registry is left as it was. *)
Theorem stale_slot_not_reclaimed s sid raw old :
  truthy raw = true →
  online s !! norm_id raw = Some old →
  old ≠ "" → old ≠ sid →
  sockets s !! old = None →
  let s1 := (step s (Handshake sid raw)).1 in
  let res := step s1 (Connection sid) in
  (step s (Handshake sid raw)).2 = [Proceed] ∧
  res.2 = [SocketEmit (UserError ALREADY_IN_USE); SocketDisconnect] ∧
  online res.1 = online s ∧ sockets res.1 = sockets s.
Proof.
  intros Ht Ho Hne Hd Hk s1 res. apply sid_truthy_Some in Hne.
  assert (Hh : step s (Handshake sid raw)
               = (set_handshaken (<[sid := norm_id raw]> (handshaken s)) s, [Proceed])).
  { simpl. unfold middleware. rewrite Ht, Ho, Hne. simpl. rewrite Hk.
    by rewrite bool_decide_eq_false_2 by (by intros [? ?]). }
  subst res s1. rewrite Hh. simpl. rewrite lookup_insert_eq.
  unfold on_connection. simpl. rewrite Ho, Hne.
  by rewrite bool_decide_eq_true_2 by congruence.
Qed.

Lemma stale_slot_not_reclaimed_witness :
  (step (step st_stale (Handshake "sNew" (JStr "alice"))).1 (Connection "sNew")).2
  = [SocketEmit (UserError ALREADY_IN_USE); SocketDisconnect].
Proof.
  refine (proj1 (proj2 (stale_slot_not_reclaimed st_stale "sNew" (JStr "alice") "sOld"
            eq_refl _ _ _ _))).
  - vm_compute. reflexivity.
  - discriminate.
  - discriminate.
  - vm_compute. reflexivity.
Defined.

(** X13. After a disconnect the identity is free again. When the socket of a
    registered identity disconnects (in a reachable state), its registry slot
    is empty, a new handshake under the same identity is let through, and
    the [connection] handler registers the new socket; the identity starts
    with an empty index. *)
Theorem reconnect_after_disconnect s sid me sid2 raw now :
  reachable s →
  sockets s !! sid = Some me →
  truthy raw = true →
  norm_id raw = me →
  let s1 := (step s (Disconnect sid now)).1 in
  let s2 := (step s1 (Handshake sid2 raw)).1 in
  let res := step s2 (Connection sid2) in
  online s1 !! me = None ∧
  (step s1 (Handshake sid2 raw)).2 = [Proceed] ∧
  res.2 = [SocketEmit (UserRegistered me)] ∧
  online res.1 !! me = Some sid2 ∧
  sockets res.1 !! sid2 = Some me ∧
  index_of res.1 me = [].
Proof.
  intros Hreach Hs Ht Hn s1 s2 res.
  destruct (reachable_registry s Hreach) as [_ Hreg].
  assert (Hs1 : online s1 !! me = None ∧ userRooms s1 !! me = None).
  { subst s1. simpl. rewrite Hs.
    destruct (on_disconnect_state s me sid now) as (Ho & _ & _ & Hu & _).
    rewrite Ho, Hu, (Hreg _ _ Hs), bool_decide_eq_true_2 by done.
    split; apply lookup_delete_eq. }
  destruct Hs1 as [Hfree Hidx]. split; [done|].
  assert (Hfree' : sid_truthy (online s1 !! norm_id raw) = false) by (by rewrite Hn, Hfree).
  assert (Hh : step s1 (Handshake sid2 raw)
               = (set_handshaken (<[sid2 := me]> (handshaken s1)) s1, [Proceed])).
  { simpl. unfold middleware. rewrite Ht. simpl. by rewrite Hn, Hfree. }
  subst res s2. rewrite Hh. simpl. rewrite lookup_insert_eq.
  unfold on_connection. simpl. rewrite Hfree. simpl.
  rewrite !lookup_insert_eq. unfold index_of. simpl. by rewrite Hidx.
Qed.

Lemma reconnect_after_disconnect_witness :
  online (step (step (step st_invited (Disconnect "sB" 5%Z)).1
                  (Handshake "sB2" (JStr "bob"))).1 (Connection "sB2")).1 !! "bob"
  = Some "sB2".
Proof.
  refine (proj1 (proj2 (proj2 (proj2
    (reconnect_after_disconnect st_invited "sB" "bob" "sB2" (JStr "bob") 5%Z
       st_invited_reachable _ eq_refl _))))).
  - vm_compute. reflexivity.
  - vm_compute. reflexivity.
Defined.

(** ** Lengths of room keys and identities *)

Lemma step_ids_bounded s e : ids_bounded s → ids_bounded (step s e).1.
Proof.
  intros (Hr & Hk & Hh).
  assert (Hkeep : ∀ s', rooms s' = rooms s → sockets s' = sockets s →
                    handshaken s' = handshaken s → ids_bounded s').
  { intros s' E1 E2 E3. unfold ids_bounded. by rewrite E1, E2, E3. }
  destruct e; simpl; unfold with_socket.
  - unfold middleware. repeat case_match; simpl; try by apply Hkeep.
    split; [done|]. split; [done|]. simpl.
    intros sid' me [[_ <-] | [_ Hl]]%lookup_insert_Some; [apply norm_id_length | eauto].
  - destruct (handshaken s !! sid) as [me|] eqn:Eh; [|by apply Hkeep].
    unfold on_connection. case_match; simpl.
    + split; [done|]. split; [done|]. simpl.
      intros sid' me' [_ Hl]%lookup_delete_Some. eauto.
    + split; [done|]. split; simpl.
      * intros sid' me' [[_ <-] | [_ Hl]]%lookup_insert_Some; eauto.
      * intros sid' me' [_ Hl]%lookup_delete_Some. eauto.
  - unfold room_exists. repeat case_match; simpl; by apply Hkeep.
  - unfold room_create. repeat case_match; simpl; try by apply Hkeep.
    all: split; [|done]; simpl;
      intros rid r [[<- _] | [_ Hl]]%lookup_insert_Some; [apply norm_id_length | eauto].
  - unfold room_join. repeat case_match; simpl; try by apply Hkeep.
    all: split; [|done]; simpl;
      intros rid r' [[<- _] | [_ Hl]]%lookup_insert_Some; [apply norm_id_length | eauto].
  - unfold room_invite. repeat case_match; simpl; by apply Hkeep.
  - unfold room_accept. repeat case_match; simpl; try by apply Hkeep.
    all: split; [|done]; simpl;
      intros rid r' [[<- _] | [_ Hl]]%lookup_insert_Some; eauto.
  - unfold room_reject. repeat case_match; simpl; by apply Hkeep.
  - unfold room_leave. repeat case_match; simpl in *; subst; try by apply Hkeep.
    + split; [|done]. simpl. intros rid r' [_ Hl]%lookup_delete_Some.
      apply lookup_insert_Some in Hl as [[<- _] | [_ Hl]]; eauto.
    + split; [|done]. simpl.
      intros rid r' [[<- _] | [_ Hl]]%lookup_insert_Some; eauto.
  - unfold room_send. repeat case_match; simpl; by apply Hkeep.
  - destruct (sockets s !! sid) as [me|] eqn:Es; simpl.
    + destruct (on_disconnect_state s me sid now) as (_ & Hrm & _ & _ & Hsk & Hhs).
      split; [|split].
      * intros rid r'. rewrite Hrm. case_bool_decide; [|eauto].
        destruct (rooms s !! rid) eqn:E; [eauto | done].
      * intros sid' me'. rewrite Hsk. intros [_ Hl]%lookup_delete_Some. eauto.
      * intros sid' me'. rewrite Hhs. eauto.
    + split; [done|]. split; [done|]. simpl.
      intros sid' me' [_ Hl]%lookup_delete_Some. eauto.
Qed.

Lemma reachable_ids_bounded s : reachable s → ids_bounded s.
Proof.
  induction 1 as [|s e _ IH _]; [|by apply step_ids_bounded].
  repeat split; intros ? ? Hl; simpl in Hl; by rewrite lookup_empty in Hl.
Qed.

(** X14. Room keys and identities are at most 64 units long in every
    reachable state. [room:exists] trims the id it is asked about but does
    not cut it: for an id of at most 64 units after trimming it reports
    whether the room is stored, and for a longer id it always reports that
    there is no such room, even right after a create with the same id. *)
Theorem ids_at_most_64 s :
  reachable s →
  (∀ rid r, rooms s !! rid = Some r → (String.length rid ≤ 64)%nat) ∧
  (∀ sid me, sockets s !! sid = Some me → (String.length me ≤ 64)%nat) ∧
  (∀ roomId, truthy roomId = true →
     (String.length (trim (js_String roomId)) ≤ 64)%nat →
     reply_of (room_exists s roomId).2
     = Some (AckExists (bool_decide (is_Some (rooms s !! norm_id roomId)))
               (match rooms s !! norm_id roomId with
                | Some r => pass_truthy (pass r) | None => false end))) ∧
  (∀ roomId me sid password now, truthy roomId = true →
     (64 < String.length (trim (js_String roomId)))%nat →
     room_exists s roomId = (s, [Reply (AckExists false false)]) ∧
     (rooms s !! norm_id roomId = None →
        let s1 := (step s (EvCreate sid roomId password now)).1 in
        sockets s !! sid = Some me →
        is_Some (rooms s1 !! norm_id roomId) ∧
        room_exists s1 roomId = (s1, [Reply (AckExists false false)]))).
Proof.
  intros Hreach. destruct (reachable_ids_bounded s Hreach) as (Hr & Hk & _).
  assert (Hlong : ∀ t roomId, reachable t → truthy roomId = true →
            (64 < String.length (trim (js_String roomId)))%nat →
            room_exists t roomId = (t, [Reply (AckExists false false)])).
  { intros t roomId Ht Htr Hlen. unfold room_exists. rewrite Htr. simpl.
    destruct (rooms t !! trim (js_String roomId)) as [r|] eqn:E; [|done].
    destruct (reachable_ids_bounded t Ht) as (Hr' & _). apply Hr' in E. lia. }
  split; [done|]. split; [done|]. split.
  - intros roomId Ht Hlen. unfold room_exists, norm_id. rewrite Ht. simpl.
    by rewrite slice0_short.
  - intros roomId me sid password now Ht Hlen. split; [by apply Hlong|].
    intros Hfree s1 Hs. split.
    + subst s1. simpl. unfold with_socket. rewrite Hs. unfold room_create.
      rewrite Ht. simpl. rewrite Hfree. simpl. by rewrite lookup_insert_eq.
    + apply Hlong; [|done..]. apply reachable_step; [done|].
      unfold wf_event. simpl. intros ->.
      destruct (reachable_registry s Hreach) as [[Hne _] _]. congruence.
Qed.

Lemma ids_at_most_64_witness :
  room_exists st_open_room (JStr (letters 65)) = (st_open_room, [Reply (AckExists false false)]).
Proof.
  refine (proj1 (proj2 (proj2 (proj2 (ids_at_most_64 st_open_room st_open_room_reachable)))
            (JStr (letters 65)) "bob" "sB" JUndefined 2%Z eq_refl _)).
  vm_compute. lia.
Defined.

(** ** Which stores an event can change *)

(** X15. Only a connection or a disconnect changes the registry and the set
    of connected sockets; only create, join, accept, leave and disconnect
    change the room store; only invite, accept, reject and disconnect change
    the invite store; only create, accept, leave and disconnect change the
    membership index. In particular [room:exists] and [room:send] change
    nothing, and no message is stored. *)
Theorem store_frames s e :
  match e with
  | Connection _ | Disconnect _ _ => True
  | _ => online (step s e).1 = online s ∧ sockets (step s e).1 = sockets s
  end ∧
  match e with
  | EvCreate _ _ _ _ | EvJoin _ _ _ _ | EvAccept _ _ _ | EvLeave _ _ _
  | Disconnect _ _ => True
  | _ => rooms (step s e).1 = rooms s
  end ∧
  match e with
  | EvInvite _ _ _ _ _ | EvAccept _ _ _ | EvReject _ _ _ | Disconnect _ _ => True
  | _ => invites (step s e).1 = invites s
  end ∧
  match e with
  | EvCreate _ _ _ _ | EvAccept _ _ _ | EvLeave _ _ _ | Disconnect _ _ => True
  | _ => userRooms (step s e).1 = userRooms s
  end.
Proof.
  destruct e; simpl; unfold with_socket.
  - unfold middleware. repeat case_match; simpl; done.
  - unfold on_connection. repeat case_match; simpl; done.
  - unfold room_exists. repeat case_match; simpl; done.
  - unfold room_create. repeat case_match; simpl; done.
  - unfold room_join. repeat case_match; simpl; done.
  - unfold room_invite. repeat case_match; simpl; done.
  - unfold room_accept. repeat case_match; simpl; done.
  - unfold room_reject. repeat case_match; simpl; done.
  - unfold room_leave. repeat case_match; simpl; done.
  - unfold room_send. repeat case_match; simpl; done.
  - done.
Qed.

(** ** Passwords *)




